(** * nessclient: the in-memory alarm model ([nessclient/alarm.py])

    A shallow embedding of the [Alarm] class: its enumerations, the state
    it owns, the two mutators with change detection, the three event
    handlers and the dispatcher [handle_event].  Python exceptions and
    listener invocations are made explicit by a small state / error /
    trace monad. *)

From Stdlib Require Import ZArith Lia.
From stdpp Require Import base decidable option list sets strings numbers pretty.

Local Open Scope Z_scope.

(** ** Enumerations of [alarm.py] *)

Module ArmingState.
Inductive t :=
| UNKNOWN | DISARMED | ARMING | EXIT_DELAY
| ARMED | ARMED_MONITOR | ENTRY_DELAY | TRIGGERED.

#[global] Instance eq_dec : EqDecision t.
Proof. solve_decision. Defined.
End ArmingState.

Module ArmingMode.
Inductive t :=
| ARMED_AWAY | ARMED_HOME | ARMED_DAY
| ARMED_NIGHT | ARMED_VACATION | ARMED_HIGHEST.

#[global] Instance eq_dec : EqDecision t.
Proof. solve_decision. Defined.
End ArmingMode.

(** ** The event types imported from [nessclient/event.py] *)

Module ArmingUpdate.
(** Modelled from the spec: the enumeration [ArmingUpdate.ArmingStatus]
    is declared in [event.py].  The three flags the handler names are
    kept by name; every other flag of the panel is [OTHER_STATUS]. *)
Inductive ArmingStatus :=
| AREA_1_ARMED | AREA_1_FULLY_ARMED | MONITOR_ARMED
| OTHER_STATUS (code : N).

#[global] Instance ArmingStatus_eq_dec : EqDecision ArmingStatus.
Proof. solve_decision. Defined.
End ArmingUpdate.

Module ZoneUpdate.
(** Modelled from the spec: the enumeration [ZoneUpdate.RequestID] is
    declared in [event.py]; only the "zone input unsealed report" kind
    is named by the dispatcher. *)
Inductive RequestID :=
| ZONE_INPUT_UNSEALED
| OTHER_REQUEST (code : N).

#[global] Instance RequestID_eq_dec : EqDecision RequestID.
Proof. solve_decision. Defined.

(** Modelled from the spec: the enumeration [ZoneUpdate.Zone] is declared
    in [event.py]; it has one member per zone, [ZONE_1] to [ZONE_16]. *)
Inductive Zone :=
| ZONE_1 | ZONE_2 | ZONE_3 | ZONE_4 | ZONE_5 | ZONE_6 | ZONE_7 | ZONE_8
| ZONE_9 | ZONE_10 | ZONE_11 | ZONE_12 | ZONE_13 | ZONE_14 | ZONE_15
| ZONE_16.

#[global] Instance Zone_eq_dec : EqDecision Zone.
Proof. solve_decision. Defined.

(** The members of the enumeration with their names, in declaration
    order: what [ZoneUpdate.Zone[name]] looks a name up in. *)
Definition Zone_members : list (string * Zone) :=
  [ ("ZONE_1", ZONE_1); ("ZONE_2", ZONE_2); ("ZONE_3", ZONE_3);
    ("ZONE_4", ZONE_4); ("ZONE_5", ZONE_5); ("ZONE_6", ZONE_6);
    ("ZONE_7", ZONE_7); ("ZONE_8", ZONE_8); ("ZONE_9", ZONE_9);
    ("ZONE_10", ZONE_10); ("ZONE_11", ZONE_11); ("ZONE_12", ZONE_12);
    ("ZONE_13", ZONE_13); ("ZONE_14", ZONE_14); ("ZONE_15", ZONE_15);
    ("ZONE_16", ZONE_16) ].

(** [ZoneUpdate.Zone[name]]; [None] stands for Python's [KeyError]. *)
Definition Zone_getitem (name : string) : option Zone :=
  (λ r, r.2.2) <$> list_find (λ m, m.1 = name) Zone_members.
End ZoneUpdate.

Module SystemStatusEvent.
(** Modelled from the spec: the enumeration [SystemStatusEvent.EventType]
    is declared in [event.py].  The members the handler names are kept by
    name; every other event type of the protocol is [OTHER_TYPE]. *)
Inductive EventType :=
| UNSEALED | SEALED | ALARM | ALARM_RESTORE
| ENTRY_DELAY_START | ENTRY_DELAY_END | EXIT_DELAY_START | EXIT_DELAY_END
| ARMED_AWAY | ARMED_HOME | ARMED_DAY | ARMED_NIGHT | ARMED_VACATION
| ARMED_HIGHEST | DISARMED | ARMING_DELAYED
| OTHER_TYPE (code : N).

#[global] Instance EventType_eq_dec : EqDecision EventType.
Proof. solve_decision. Defined.
End SystemStatusEvent.

(** Modelled from the spec: the event classes of [event.py], as the tagged
    union the dispatcher distinguishes with [isinstance].  [status] and
    [included_zones] are Python lists of flags; [zone] is the integer the
    parser put in the event, [None] when the field is absent.  [OtherEvent]
    is any other subclass of [BaseEvent]. *)
Inductive BaseEvent :=
| ArmingUpdate (status : list ArmingUpdate.ArmingStatus)
| ZoneUpdate (request_id : ZoneUpdate.RequestID)
             (included_zones : list ZoneUpdate.Zone)
| SystemStatusEvent (type : SystemStatusEvent.EventType) (zone : option Z)
| OtherEvent.

(** ** Exceptions, listeners and the calls made to them *)

Inductive PyExn := TypeError | IndexError | KeyError.

(** A registered callable; only its identity matters here. *)
Definition Listener := nat.

(** One invocation of a listener, with the arguments it received. *)
Inductive Call :=
| StateChange (f : Listener) (state : ArmingState.t)
              (mode : option ArmingMode.t)
| ZoneChange (f : Listener) (zone_id : Z) (state : bool).

#[global] Instance PyExn_eq_dec : EqDecision PyExn.
Proof. solve_decision. Defined.
#[global] Instance Call_eq_dec : EqDecision Call.
Proof. solve_decision. Defined.

(** [Alarm.Zone], the dataclass with the one field [triggered]. *)
Record Zone := mkZone { triggered : option bool }.

#[global] Instance Zone_eq_dec : EqDecision Zone.
Proof. solve_decision. Defined.

(** The fields of an [Alarm] instance. *)
Record Alarm := mkAlarm {
  _infer_arming_state : bool;
  arming_state : ArmingState.t;
  zones : list Zone;
  _arming_mode : option ArmingMode.t;
  _on_state_change : option Listener;
  _on_zone_change : option Listener
}.

#[global] Instance Alarm_eq_dec : EqDecision Alarm.
Proof. solve_decision. Defined.

(** [Alarm.ARM_EVENTS_MAP], in the order the dictionary is written. *)
Definition ARM_EVENTS_MAP : list (SystemStatusEvent.EventType * ArmingMode.t) :=
  [ (SystemStatusEvent.ARMED_AWAY, ArmingMode.ARMED_AWAY);
    (SystemStatusEvent.ARMED_HOME, ArmingMode.ARMED_HOME);
    (SystemStatusEvent.ARMED_DAY, ArmingMode.ARMED_DAY);
    (SystemStatusEvent.ARMED_NIGHT, ArmingMode.ARMED_NIGHT);
    (SystemStatusEvent.ARMED_VACATION, ArmingMode.ARMED_VACATION);
    (SystemStatusEvent.ARMED_HIGHEST, ArmingMode.ARMED_HIGHEST) ].

(** [ARM_EVENTS_MAP[k]] ([None] when [k] is not a key). *)
Definition ARM_EVENTS_MAP_get (k : SystemStatusEvent.EventType)
  : option ArmingMode.t :=
  (λ r, r.2.2) <$> list_find (λ kv, kv.1 = k) ARM_EVENTS_MAP.

(** [Alarm.__init__]. *)
Definition init (infer_arming_state : bool) : Alarm :=
  {| _infer_arming_state := infer_arming_state;
     arming_state := ArmingState.UNKNOWN;
     zones := replicate 16 (mkZone None);
     _arming_mode := None;
     _on_state_change := None;
     _on_zone_change := None |}.

(** ** The monad of the methods

    A method runs on the instance [self]; it ends by returning or by
    raising, and either way leaves an instance behind and has made a list
    of listener calls. *)

Inductive outcome (A : Type) :=
| Return (x : A)
| Raise (e : PyExn).
Arguments Return {A} x.
Arguments Raise {A} e.

Definition M (A : Type) : Type := Alarm → outcome A * Alarm * list Call.

#[global] Instance M_ret : MRet M := λ A x self, (Return x, self, []).

#[global] Instance M_bind : MBind M := λ A B k m self,
  match m self with
  | (Return x, self', cs) =>
      match k x self' with
      | (r, self'', cs') => (r, self'', cs ++ cs')
      end
  | (Raise e, self', cs) => (Raise e, self', cs)
  end.

Definition get : M Alarm := λ self, (Return self, self, []).
Definition modify (f : Alarm → Alarm) : M unit :=
  λ self, (Return tt, f self, []).
Definition raise {A} (e : PyExn) : M A := λ self, (Raise e, self, []).
Definition call (c : Call) : M unit := λ self, (Return tt, self, [c]).

(** The three projections of a run. *)
Definition result {A} (r : outcome A * Alarm * list Call) : outcome A := r.1.1.
Definition final {A} (r : outcome A * Alarm * list Call) : Alarm := r.1.2.
Definition calls {A} (r : outcome A * Alarm * list Call) : list Call := r.2.

(** [for x in xs: body(x)]. *)
Fixpoint for_each {A} (xs : list A) (body : A → M unit) : M unit :=
  match xs with
  | [] => mret tt
  | x :: xs' => body x ;; for_each xs' body
  end.

(** [enumerate(xs)]. *)
Definition enumerate {A} (xs : list A) : list (nat * A) := imap pair xs.

(** Python's list indexing: [xs[i]] counts from the end for a negative [i]
    and raises [IndexError] outside [-len(xs) .. len(xs) - 1].  The result
    is the position in the list. *)
Definition py_index (len : nat) (i : Z) : option nat :=
  if bool_decide (0 ≤ i < Z.of_nat len) then Some (Z.to_nat i)
  else if bool_decide (- Z.of_nat len ≤ i < 0) then
    Some (Z.to_nat (Z.of_nat len + i))
  else None.

(** ** Field assignments *)

(** [self.arming_state = s]. *)
Definition with_arming_state (s : ArmingState.t) (self : Alarm) : Alarm :=
  {| _infer_arming_state := _infer_arming_state self;
     arming_state := s;
     zones := zones self;
     _arming_mode := _arming_mode self;
     _on_state_change := _on_state_change self;
     _on_zone_change := _on_zone_change self |}.

(** [self._arming_mode = m]. *)
Definition with_arming_mode (m : option ArmingMode.t) (self : Alarm) : Alarm :=
  {| _infer_arming_state := _infer_arming_state self;
     arming_state := arming_state self;
     zones := zones self;
     _arming_mode := m;
     _on_state_change := _on_state_change self;
     _on_zone_change := _on_zone_change self |}.

(** [self.zones[k].triggered = b], for a position [k] already resolved:
    the zone object held at [k] is mutated, the list keeps its length. *)
Definition with_zone_triggered (k : nat) (b : bool) (self : Alarm) : Alarm :=
  {| _infer_arming_state := _infer_arming_state self;
     arming_state := arming_state self;
     zones := <[k := mkZone (Some b)]> (zones self);
     _arming_mode := _arming_mode self;
     _on_state_change := _on_state_change self;
     _on_zone_change := _on_zone_change self |}.

(** [on_state_change] and [on_zone_change]: the registration replaces the
    listener held before. *)
Definition on_state_change (f : Listener) (self : Alarm) : Alarm :=
  {| _infer_arming_state := _infer_arming_state self;
     arming_state := arming_state self;
     zones := zones self;
     _arming_mode := _arming_mode self;
     _on_state_change := Some f;
     _on_zone_change := _on_zone_change self |}.

Definition on_zone_change (f : Listener) (self : Alarm) : Alarm :=
  {| _infer_arming_state := _infer_arming_state self;
     arming_state := arming_state self;
     zones := zones self;
     _arming_mode := _arming_mode self;
     _on_state_change := _on_state_change self;
     _on_zone_change := Some f |}.

(** ** The mutators *)

Definition _update_arming_state (state : ArmingState.t) : M unit :=
  self ← get;
  if bool_decide (arming_state self ≠ state) then
    modify (with_arming_state state) ;;
    self ← get;
    match _on_state_change self with
    | Some f => call (StateChange f state (_arming_mode self))
    | None => mret tt
    end
  else mret tt.

(** [zone_id] is whatever the caller passes: an integer, or [None]. *)
Definition _update_zone (zone_id : option Z) (state : bool) : M unit :=
  self ← get;
  match zone_id with
  | None => raise TypeError
  | Some zid =>
      match py_index (length (zones self)) (zid - 1) with
      | None => raise IndexError
      | Some k =>
          match zones self !! k with
          | None => raise IndexError
          | Some zone =>
              if bool_decide (triggered zone ≠ Some state) then
                modify (with_zone_triggered k state) ;;
                self ← get;
                match _on_zone_change self with
                | Some f => call (ZoneChange f zid state)
                | None => mret tt
                end
              else mret tt
          end
      end
  end.

(** ** The handlers *)

Definition _handle_arming_update (status : list ArmingUpdate.ArmingStatus)
  : M unit :=
  self ← get;
  if bool_decide (status = [ArmingUpdate.AREA_1_ARMED]) then
    _update_arming_state ArmingState.EXIT_DELAY
  else if bool_decide (ArmingUpdate.MONITOR_ARMED ∈ status) then
    _update_arming_state ArmingState.ARMED_MONITOR
  else if bool_decide (arming_state self = ArmingState.TRIGGERED) then
    _update_arming_state ArmingState.TRIGGERED
  else if bool_decide (ArmingUpdate.AREA_1_ARMED ∈ status)
          && bool_decide (ArmingUpdate.AREA_1_FULLY_ARMED ∈ status) then
    _update_arming_state ArmingState.ARMED
  else if _infer_arming_state self then
    if bool_decide (arming_state self = ArmingState.UNKNOWN) then
      _update_arming_state ArmingState.DISARMED
    else mret tt
  else
    _update_arming_state ArmingState.DISARMED.

Definition _handle_zone_input_update (included_zones : list ZoneUpdate.Zone)
  : M unit :=
  self ← get;
  for_each (enumerate (zones self)) (λ '(i, _),
    let zone_id := Z.of_nat i + 1 in
    let name := "ZONE_" +:+ pretty zone_id in
    match ZoneUpdate.Zone_getitem name with
    | None => raise KeyError
    | Some z =>
        if bool_decide (z ∈ included_zones) then
          _update_zone (Some zone_id) true
        else
          _update_zone (Some zone_id) false
    end).

Definition _handle_system_status_event
    (type : SystemStatusEvent.EventType) (zone : option Z) : M unit :=
  self ← get;
  if bool_decide (type = SystemStatusEvent.UNSEALED) then
    _update_zone zone true
  else if bool_decide (type = SystemStatusEvent.SEALED) then
    _update_zone zone false
  else if bool_decide (type = SystemStatusEvent.ALARM) then
    _update_arming_state ArmingState.TRIGGERED
  else if bool_decide (type = SystemStatusEvent.ALARM_RESTORE) then
    if bool_decide (arming_state self ≠ ArmingState.DISARMED) then
      _update_arming_state ArmingState.ARMED
    else mret tt
  else if bool_decide (type = SystemStatusEvent.ENTRY_DELAY_START) then
    _update_arming_state ArmingState.ENTRY_DELAY
  else if bool_decide (type = SystemStatusEvent.ENTRY_DELAY_END) then
    mret tt
  else if bool_decide (type = SystemStatusEvent.EXIT_DELAY_START) then
    _update_arming_state ArmingState.EXIT_DELAY
  else if bool_decide (type = SystemStatusEvent.EXIT_DELAY_END) then
    if bool_decide (arming_state self = ArmingState.EXIT_DELAY) then
      _update_arming_state ArmingState.ARMED
    else mret tt
  else if bool_decide (type ∈ ARM_EVENTS_MAP.*1) then
    match ARM_EVENTS_MAP_get type with
    | None => raise KeyError
    | Some mode =>
        modify (with_arming_mode (Some mode)) ;;
        _update_arming_state ArmingState.ARMING
    end
  else if bool_decide (type = SystemStatusEvent.DISARMED) then
    modify (with_arming_mode None) ;;
    _update_arming_state ArmingState.DISARMED
  else if bool_decide (type = SystemStatusEvent.ARMING_DELAYED) then
    mret tt
  else mret tt.

(** ** The dispatcher *)

Definition handle_event (event : BaseEvent) : M unit :=
  match event with
  | ArmingUpdate status => _handle_arming_update status
  | ZoneUpdate request_id included_zones =>
      if bool_decide (request_id = ZoneUpdate.ZONE_INPUT_UNSEALED) then
        _handle_zone_input_update included_zones
      else mret tt
  | SystemStatusEvent type zone => _handle_system_status_event type zone
  | OtherEvent => mret tt
  end.

(** Handling a sequence of events in order, stopping at the first that
    raises. *)
Definition handle_events (events : list BaseEvent) : M unit :=
  for_each events handle_event.


(** * The vocabulary of the properties *)

(** The listener calls a state change makes. *)
Definition state_calls (self : Alarm) (state : ArmingState.t) : list Call :=
  match _on_state_change self with
  | Some f => [StateChange f state (_arming_mode self)]
  | None => []
  end.

(** The listener calls a zone change makes. *)
Definition zone_calls (self : Alarm) (zone_id : Z) (state : bool) : list Call :=
  match _on_zone_change self with
  | Some f => [ZoneChange f zone_id state]
  | None => []
  end.

(** The state the handler passes to [_update_arming_state]; where the
    handler returns without calling it, the state it leaves in place. *)
Definition arming_update_target (self : Alarm)
    (status : list ArmingUpdate.ArmingStatus) : ArmingState.t :=
  if bool_decide (status = [ArmingUpdate.AREA_1_ARMED]) then
    ArmingState.EXIT_DELAY
  else if bool_decide (ArmingUpdate.MONITOR_ARMED ∈ status) then
    ArmingState.ARMED_MONITOR
  else if bool_decide (arming_state self = ArmingState.TRIGGERED) then
    ArmingState.TRIGGERED
  else if bool_decide (ArmingUpdate.AREA_1_ARMED ∈ status)
          && bool_decide (ArmingUpdate.AREA_1_FULLY_ARMED ∈ status) then
    ArmingState.ARMED
  else if _infer_arming_state self then
    if bool_decide (arming_state self = ArmingState.UNKNOWN) then
      ArmingState.DISARMED
    else arming_state self
  else ArmingState.DISARMED.

(** The status, read as a set of flags, is exactly [{AREA_1_ARMED}]. *)
Definition only_area_1_armed (status : list ArmingUpdate.ArmingStatus)
  : Prop :=
  ∀ f, f ∈ status ↔ f = ArmingUpdate.AREA_1_ARMED.

(** The event matches none of the rules 1 to 4. *)
Definition no_rule_matches (self : Alarm)
    (status : list ArmingUpdate.ArmingStatus) : Prop :=
  (¬ only_area_1_armed status) ∧
  (ArmingUpdate.MONITOR_ARMED ∉ status) ∧
  (arming_state self ≠ ArmingState.TRIGGERED) ∧
  ¬ (ArmingUpdate.AREA_1_ARMED ∈ status ∧
     ArmingUpdate.AREA_1_FULLY_ARMED ∈ status).

(** The event types for which the handler has no branch that acts. *)
Definition ignored_type (type : SystemStatusEvent.EventType) : Prop :=
  type = SystemStatusEvent.ENTRY_DELAY_END ∨
  type = SystemStatusEvent.ARMING_DELAYED ∨
  ∃ code, type = SystemStatusEvent.OTHER_TYPE code.

(** The flags of [ZoneUpdate.Zone] in declaration order: position [i] holds
    the identifier of zone [i + 1]. *)
Definition zone_flags : list ZoneUpdate.Zone := ZoneUpdate.Zone_members.*2.

(** The body of the handler's loop, at position [i]. *)
Definition zone_step (included_zones : list ZoneUpdate.Zone) (i : nat)
  : M unit :=
  let zone_id := Z.of_nat i + 1 in
  match ZoneUpdate.Zone_getitem ("ZONE_" +:+ pretty zone_id) with
  | None => raise KeyError
  | Some z =>
      if bool_decide (z ∈ included_zones) then _update_zone (Some zone_id) true
      else _update_zone (Some zone_id) false
  end.

(** Whether the report lists the flag of zone [i + 1]. *)
Definition reported (included_zones : list ZoneUpdate.Zone) (i : nat) : bool :=
  match zone_flags !! i with
  | Some flag => bool_decide (flag ∈ included_zones)
  | None => false
  end.

(** The value stored at position [i] differs from [b]. *)
Definition zone_differs (self : Alarm) (i : nat) (b : bool) : Prop :=
  triggered <$> zones self !! i ≠ Some (Some b).

#[global] Instance zone_differs_dec self i b : Decision (zone_differs self i b).
Proof. unfold zone_differs. apply _. Defined.

(** The instance after the loop has passed the positions [ks]. *)
Definition zone_loop_final (included_zones : list ZoneUpdate.Zone)
    (self : Alarm) (ks : list nat) : Alarm :=
  foldl (λ s i, with_zone_triggered i (reported included_zones i) s) self ks.

(** The calls of the loop over the positions [ks]: one for each position
    whose stored value differs from the reported one, in order. *)
Definition zone_loop_calls (included_zones : list ZoneUpdate.Zone)
    (self : Alarm) (ks : list nat) : list Call :=
  match _on_zone_change self with
  | Some f =>
      (λ i : nat, ZoneChange f (Z.of_nat i + 1) (reported included_zones i))
        <$> filter (λ i, zone_differs self i (reported included_zones i)) ks
  | None => []
  end.

(** What a call reports on: the arming state, or the zone of a given id. *)
Inductive Subject :=
| OfArmingState
| OfZone (zone_id : Z).

Definition call_subject (c : Call) : Subject :=
  match c with
  | StateChange _ _ _ => OfArmingState
  | ZoneChange _ zone_id _ => OfZone zone_id
  end.

(** The arming/armed family of states. *)
Definition armed_family : list ArmingState.t :=
  [ ArmingState.ARMING; ArmingState.EXIT_DELAY; ArmingState.ARMED;
    ArmingState.ARMED_MONITOR; ArmingState.ENTRY_DELAY;
    ArmingState.TRIGGERED ].

(** The recorded mode is present only in a state of the arming/armed
    family. *)
Definition mode_only_when_armed (self : Alarm) : Prop :=
  _arming_mode self ≠ None → arming_state self ∈ armed_family.

(** Between [self] and [self'] nothing but the values of the zones differs. *)
Definition only_zones_changed (self self' : Alarm) : Prop :=
  _infer_arming_state self' = _infer_arming_state self ∧
  arming_state self' = arming_state self ∧
  _arming_mode self' = _arming_mode self ∧
  _on_state_change self' = _on_state_change self ∧
  _on_zone_change self' = _on_zone_change self ∧
  length (zones self') = length (zones self).

(** The configuration flag, the listeners and the number of zones are the
    same in [self] and [self']. *)
Definition frame (self self' : Alarm) : Prop :=
  _infer_arming_state self' = _infer_arming_state self ∧
  _on_state_change self' = _on_state_change self ∧
  _on_zone_change self' = _on_zone_change self ∧
  length (zones self') = length (zones self).

(** The event is a SEALED or UNSEALED report. *)
Definition zone_report (event : BaseEvent) (zone : option Z) : Prop :=
  event = SystemStatusEvent SystemStatusEvent.UNSEALED zone ∨
  event = SystemStatusEvent SystemStatusEvent.SEALED zone.

(** Where the event is a SEALED or UNSEALED report, its zone is present and
    within 1..16. *)
Definition zone_in_range (event : BaseEvent) : Prop :=
  ∀ zone, zone_report event zone → ∃ zid, zone = Some zid ∧ 1 ≤ zid ≤ 16.

(** The events the dispatcher and the handlers have no branch for: another
    variant, a ZoneUpdate of another request kind, a SystemStatusEvent of a
    type without an action. *)
Definition unmatched (event : BaseEvent) : Prop :=
  match event with
  | ArmingUpdate _ => False
  | ZoneUpdate request_id _ => request_id ≠ ZoneUpdate.ZONE_INPUT_UNSEALED
  | SystemStatusEvent type _ => ignored_type type
  | OtherEvent => True
  end.

(** The instances a program can get to from a fresh one: by registering a
    listener, or by handling an event, however the handling ends (an
    exception leaves the instance as it was when it was raised). *)
Inductive reachable (infer : bool) : Alarm → Prop :=
| reachable_init : reachable infer (init infer)
| reachable_on_state_change (self : Alarm) (f : Listener) :
    reachable infer self → reachable infer (on_state_change f self)
| reachable_on_zone_change (self : Alarm) (f : Listener) :
    reachable infer self → reachable infer (on_zone_change f self)
| reachable_handle_event (self : Alarm) (event : BaseEvent) :
    reachable infer self →
    reachable infer (final (handle_event event self)).


(** The event is one of the six ARMED_x events or the DISARMED event. *)
Definition sets_mode (event : BaseEvent) : Prop :=
  ∃ type zone, event = SystemStatusEvent type zone ∧
    (type ∈ ARM_EVENTS_MAP.*1 ∨ type = SystemStatusEvent.DISARMED).

(** The call goes to the listener that [self] holds for its kind. *)
Definition call_to_registered (self : Alarm) (c : Call) : Prop :=
  match c with
  | StateChange f _ _ => _on_state_change self = Some f
  | ZoneChange f _ _ => _on_zone_change self = Some f
  end.

Ltac unfold_M :=
  unfold mbind, M_bind, mret, M_ret, get, modify, raise, call in *.

(** * Properties *)

(** ** Running the mutators *)

Lemma _update_arming_state_run (state : ArmingState.t) (self : Alarm) :
  _update_arming_state state self =
    if bool_decide (arming_state self ≠ state)
    then (Return tt, with_arming_state state self, state_calls self state)
    else (Return tt, self, []).
Proof.
  unfold _update_arming_state, state_calls; unfold_M.
  case_bool_decide; [| done]. simpl.
  by destruct (_on_state_change self).
Qed.

Lemma _update_arming_state_same (self : Alarm) :
  _update_arming_state (arming_state self) self = (Return tt, self, []).
Proof. rewrite _update_arming_state_run. by rewrite bool_decide_false by auto. Qed.

(** Binding after [get] runs the continuation on the current instance. *)
Lemma bind_get {A} (k : Alarm → M A) (self : Alarm) :
  (get ≫= k) self = k self self.
Proof.
  unfold_M. destruct (k self self) as [[r s] cs]. done.
Qed.

(** Setting a field, then going on. *)
Lemma bind_modify {A} (f : Alarm → Alarm) (m : M A) (self : Alarm) :
  (modify f ;; m) self = m (f self).
Proof. unfold_M. by destruct (m (f self)) as [[r s] cs]. Qed.

(** ** The arming-update handler *)

(** A duplicate-free list whose members are exactly [x] is [[x]]: how the
    handler's comparison with a one-element list reads on a set of flags. *)
Lemma singleton_flag_set {A} (x : A) (l : list A) :
  NoDup l → (∀ y, y ∈ l ↔ y = x) → l = [x].
Proof.
  intros Hnd Hmem. destruct l as [|y l].
  - assert (x ∈ @nil A) as H%elem_of_nil by (by apply Hmem). done.
  - assert (y = x) as -> by (apply Hmem; left).
    f_equal. destruct l as [|z l]; [done|].
    assert (z = x) as -> by (apply Hmem; right; left).
    apply NoDup_cons in Hnd as [Hnin _]. exfalso. apply Hnin. left.
Qed.

Lemma _handle_arming_update_run (status : list ArmingUpdate.ArmingStatus)
    (self : Alarm) :
  _handle_arming_update status self =
    _update_arming_state (arming_update_target self status) self.
Proof.
  unfold _handle_arming_update, arming_update_target. rewrite bind_get.
  repeat case_bool_decide; simpl; try done;
    destruct (_infer_arming_state self); try done;
    by rewrite _update_arming_state_same.
Qed.

Lemma _update_arming_state_result (state : ArmingState.t) (self : Alarm) :
  result (_update_arming_state state self) = Return tt.
Proof. rewrite _update_arming_state_run. by case_bool_decide. Qed.

Lemma _update_arming_state_final (state : ArmingState.t) (self : Alarm) :
  arming_state (final (_update_arming_state state self)) = state.
Proof.
  rewrite _update_arming_state_run. case_bool_decide as H; simpl; [done|].
  by destruct (decide (arming_state self = state)).
Qed.

Lemma _update_arming_state_mode (state : ArmingState.t) (self : Alarm) :
  _arming_mode (final (_update_arming_state state self)) = _arming_mode self.
Proof. rewrite _update_arming_state_run. by case_bool_decide. Qed.

Lemma _update_arming_state_zones (state : ArmingState.t) (self : Alarm) :
  zones (final (_update_arming_state state self)) = zones self.
Proof. rewrite _update_arming_state_run. by case_bool_decide. Qed.

Section arming_update.
Import ArmingUpdate.
Implicit Types (self : Alarm) (status : list ArmingStatus).

(** C1: on an ArmingUpdate whose status is a set of flags (a list without
    repetition), the handler returns and the arming state follows the
    first rule that matches: (1) the flag set is exactly {AREA_1_ARMED}:
    EXIT_DELAY; (2) else MONITOR_ARMED is a member: ARMED_MONITOR; (3)
    else the current state is TRIGGERED: TRIGGERED; (4) else AREA_1_ARMED
    and AREA_1_FULLY_ARMED are members: ARMED.  In particular
    MONITOR_ARMED together with AREA_1_ARMED and AREA_1_FULLY_ARMED gives
    ARMED_MONITOR. *)
Theorem arming_update_priority_rules self status :
  NoDup status →
  let r := handle_event (ArmingUpdate status) self in
  result r = Return tt ∧
  (only_area_1_armed status →
     arming_state (final r) = ArmingState.EXIT_DELAY) ∧
  (¬ only_area_1_armed status → MONITOR_ARMED ∈ status →
     arming_state (final r) = ArmingState.ARMED_MONITOR) ∧
  (¬ only_area_1_armed status → MONITOR_ARMED ∉ status →
   arming_state self = ArmingState.TRIGGERED →
     arming_state (final r) = ArmingState.TRIGGERED) ∧
  (¬ only_area_1_armed status → MONITOR_ARMED ∉ status →
   arming_state self ≠ ArmingState.TRIGGERED →
   AREA_1_ARMED ∈ status → AREA_1_FULLY_ARMED ∈ status →
     arming_state (final r) = ArmingState.ARMED) ∧
  (MONITOR_ARMED ∈ status → AREA_1_ARMED ∈ status →
   AREA_1_FULLY_ARMED ∈ status →
     arming_state (final r) = ArmingState.ARMED_MONITOR).
Proof.
  intros Hnd r. subst r. simpl. rewrite _handle_arming_update_run.
  rewrite _update_arming_state_result, _update_arming_state_final.
  unfold arming_update_target.
  assert (Hone : status = [AREA_1_ARMED] → only_area_1_armed status).
  { intros -> f. rewrite list_elem_of_singleton. done. }
  split; [done|]. repeat split.
  - intros H1. by rewrite bool_decide_true by by apply singleton_flag_set.
  - intros H1 H2. rewrite bool_decide_false by naive_solver.
    by rewrite bool_decide_true.
  - intros H1 H2 H3. rewrite bool_decide_false by naive_solver.
    rewrite bool_decide_false by done. by rewrite bool_decide_true.
  - intros H1 H2 H3 H4 H5. rewrite bool_decide_false by naive_solver.
    do 2 rewrite bool_decide_false by done.
    by do 2 rewrite bool_decide_true by done.
  - intros H2 H4 H5.
    rewrite bool_decide_false.
    + by rewrite bool_decide_true.
    + intros ->. apply list_elem_of_singleton in H2. done.
Qed.

Lemma arming_update_priority_rules_witness :
  NoDup [AREA_1_ARMED; AREA_1_FULLY_ARMED; MONITOR_ARMED] ∧
  arming_state
    (final (handle_event
              (ArmingUpdate [AREA_1_ARMED; AREA_1_FULLY_ARMED; MONITOR_ARMED])
              (init false)))
    = ArmingState.ARMED_MONITOR.
Proof.
  assert (Hnd : NoDup [AREA_1_ARMED; AREA_1_FULLY_ARMED; MONITOR_ARMED])
    by compute_done.
  split; [exact Hnd|].
  apply (arming_update_priority_rules (init false) _ Hnd); set_solver.
Defined.

(** C2: on an ArmingUpdate that matches none of the rules 1 to 4, with
    inference enabled the state becomes DISARMED when it is UNKNOWN and
    is left as it is otherwise; with inference disabled it becomes
    DISARMED.  An empty status in a state other than TRIGGERED is such an
    event. *)
Theorem arming_update_fallback self status :
  no_rule_matches self status →
  let r := handle_event (ArmingUpdate status) self in
  result r = Return tt ∧
  (_infer_arming_state self = true →
     (arming_state self = ArmingState.UNKNOWN →
        arming_state (final r) = ArmingState.DISARMED) ∧
     (arming_state self ≠ ArmingState.UNKNOWN →
        final r = self ∧ calls r = [])) ∧
  (_infer_arming_state self = false →
     arming_state (final r) = ArmingState.DISARMED).
Proof.
  intros (H1 & H2 & H3 & H4) r. subst r. simpl.
  rewrite _handle_arming_update_run.
  assert (arming_update_target self status =
            if _infer_arming_state self then
              if bool_decide (arming_state self = ArmingState.UNKNOWN)
              then ArmingState.DISARMED else arming_state self
            else ArmingState.DISARMED) as ->.
  { unfold arming_update_target.
    rewrite bool_decide_false.
    2:{ intros ->. apply H1. intros f. by rewrite list_elem_of_singleton. }
    do 2 rewrite bool_decide_false by done.
    destruct (bool_decide (AREA_1_ARMED ∈ status)) eqn:E1;
      destruct (bool_decide (AREA_1_FULLY_ARMED ∈ status)) eqn:E2; try done.
    apply bool_decide_eq_true in E1, E2. tauto. }
  rewrite _update_arming_state_result. split; [done|].
  split; intros ->.
  - split; intros Hs.
    + by rewrite _update_arming_state_final, bool_decide_true.
    + rewrite bool_decide_false by done.
      by rewrite _update_arming_state_same.
  - by rewrite _update_arming_state_final.
Qed.

Lemma empty_status_no_rule_matches self :
  arming_state self ≠ ArmingState.TRIGGERED → no_rule_matches self [].
Proof.
  intros Hs. split; [|split; [|split]].
  - intros H. destruct (H AREA_1_ARMED) as [_ H'].
    specialize (H' eq_refl). by apply elem_of_nil in H'.
  - apply not_elem_of_nil.
  - done.
  - intros [H _]. by apply elem_of_nil in H.
Qed.

Lemma arming_update_fallback_witness :
  let armed := with_arming_state ArmingState.ARMED (init true) in
  no_rule_matches armed [] ∧
  final (handle_event (ArmingUpdate []) armed) = armed ∧
  calls (handle_event (ArmingUpdate []) armed) = [].
Proof.
  intros armed.
  assert (H : no_rule_matches armed [])
    by (by apply empty_status_no_rule_matches).
  split; [exact H|].
  by apply (arming_update_fallback armed [] H).
Defined.
End arming_update.

(** ** The system-status handler *)

Section system_status.
Import SystemStatusEvent.
Implicit Types (self : Alarm) (z : option Z) (type : EventType).

Lemma status_UNSEALED z self :
  _handle_system_status_event UNSEALED z self = _update_zone z true self.
Proof. unfold _handle_system_status_event. by rewrite bind_get. Qed.

Lemma status_SEALED z self :
  _handle_system_status_event SEALED z self = _update_zone z false self.
Proof. unfold _handle_system_status_event. by rewrite bind_get. Qed.

Lemma status_ALARM z self :
  _handle_system_status_event ALARM z self =
    _update_arming_state ArmingState.TRIGGERED self.
Proof. unfold _handle_system_status_event. by rewrite bind_get. Qed.

Lemma status_ALARM_RESTORE z self :
  _handle_system_status_event ALARM_RESTORE z self =
    if bool_decide (arming_state self ≠ ArmingState.DISARMED)
    then _update_arming_state ArmingState.ARMED self
    else (Return tt, self, []).
Proof.
  unfold _handle_system_status_event. rewrite bind_get. simpl.
  by case_bool_decide.
Qed.

Lemma status_ENTRY_DELAY_START z self :
  _handle_system_status_event ENTRY_DELAY_START z self =
    _update_arming_state ArmingState.ENTRY_DELAY self.
Proof. unfold _handle_system_status_event. by rewrite bind_get. Qed.

Lemma status_EXIT_DELAY_START z self :
  _handle_system_status_event EXIT_DELAY_START z self =
    _update_arming_state ArmingState.EXIT_DELAY self.
Proof. unfold _handle_system_status_event. by rewrite bind_get. Qed.

Lemma status_EXIT_DELAY_END z self :
  _handle_system_status_event EXIT_DELAY_END z self =
    if bool_decide (arming_state self = ArmingState.EXIT_DELAY)
    then _update_arming_state ArmingState.ARMED self
    else (Return tt, self, []).
Proof.
  unfold _handle_system_status_event. rewrite bind_get. simpl.
  by case_bool_decide.
Qed.

Lemma status_ARMED type mode z self :
  (type, mode) ∈ ARM_EVENTS_MAP →
  _handle_system_status_event type z self =
    _update_arming_state ArmingState.ARMING
      (with_arming_mode (Some mode) self).
Proof.
  unfold ARM_EVENTS_MAP. rewrite !elem_of_cons, elem_of_nil.
  unfold _handle_system_status_event. rewrite bind_get.
  intros H; destruct_or!; try done; simplify_eq; simpl;
    by rewrite bind_modify.
Qed.

Lemma status_DISARMED z self :
  _handle_system_status_event DISARMED z self =
    _update_arming_state ArmingState.DISARMED (with_arming_mode None self).
Proof.
  unfold _handle_system_status_event. rewrite bind_get. simpl.
  by rewrite bind_modify.
Qed.

Lemma status_ignored type z self :
  ignored_type type →
  _handle_system_status_event type z self = (Return tt, self, []).
Proof.
  unfold _handle_system_status_event. rewrite bind_get.
  by intros [-> | [-> | [code ->]]].
Qed.

(** C5: from DISARMED, the events ARMED_AWAY, EXIT_DELAY_START and
    EXIT_DELAY_END lead to ARMING with the mode ARMED_AWAY recorded, then
    to EXIT_DELAY, then to ARMED; and an EXIT_DELAY_END handled in a state
    other than EXIT_DELAY changes nothing. *)
Theorem arm_away_sequence self z1 z2 z3 :
  arming_state self = ArmingState.DISARMED →
  let r1 := handle_event (SystemStatusEvent ARMED_AWAY z1) self in
  let r2 := handle_event (SystemStatusEvent EXIT_DELAY_START z2) (final r1) in
  let r3 := handle_event (SystemStatusEvent EXIT_DELAY_END z3) (final r2) in
  (result r1 = Return tt ∧
   arming_state (final r1) = ArmingState.ARMING ∧
   _arming_mode (final r1) = Some ArmingMode.ARMED_AWAY) ∧
  (result r2 = Return tt ∧
   arming_state (final r2) = ArmingState.EXIT_DELAY) ∧
  (result r3 = Return tt ∧
   arming_state (final r3) = ArmingState.ARMED) ∧
  (∀ other z, arming_state other ≠ ArmingState.EXIT_DELAY →
     handle_event (SystemStatusEvent EXIT_DELAY_END z) other =
       (Return tt, other, [])).
Proof.
  intros Hs r1 r2 r3. subst r1 r2 r3. simpl.
  rewrite (status_ARMED ARMED_AWAY ArmingMode.ARMED_AWAY)
    by (unfold ARM_EVENTS_MAP; left).
  rewrite status_EXIT_DELAY_START, status_EXIT_DELAY_END.
  rewrite !_update_arming_state_result, !_update_arming_state_final.
  rewrite bool_decide_true by done.
  rewrite _update_arming_state_result, _update_arming_state_final.
  rewrite _update_arming_state_mode.
  repeat split; try done.
  intros other z Ho. rewrite status_EXIT_DELAY_END.
  by rewrite bool_decide_false.
Qed.

Lemma arm_away_sequence_witness :
  let start := with_arming_state ArmingState.DISARMED (init false) in
  arming_state start = ArmingState.DISARMED ∧
  arming_state
    (final (handle_events
              [SystemStatusEvent ARMED_AWAY (Some 0);
               SystemStatusEvent EXIT_DELAY_START (Some 0);
               SystemStatusEvent EXIT_DELAY_END (Some 0)] start))
    = ArmingState.ARMED.
Proof.
  intros start. split; [reflexivity|].
  pose proof (arm_away_sequence start (Some 0) (Some 0) (Some 0) eq_refl)
    as (_ & _ & [_ H3] & _).
  exact H3.
Defined.

(** C6: ALARM sets the state to TRIGGERED from any state; in TRIGGERED an
    ArmingUpdate whose flags are AREA_1_ARMED and AREA_1_FULLY_ARMED
    changes nothing; ALARM_RESTORE leaves the state ARMED exactly when
    the state before is not DISARMED, and does not touch the recorded
    mode. *)
Theorem alarm_and_restore self z :
  (let r := handle_event (SystemStatusEvent ALARM z) self in
   result r = Return tt ∧ arming_state (final r) = ArmingState.TRIGGERED) ∧
  (∀ status,
     arming_state self = ArmingState.TRIGGERED →
     (∀ f, f ∈ status ↔
           f = ArmingUpdate.AREA_1_ARMED ∨
           f = ArmingUpdate.AREA_1_FULLY_ARMED) →
     handle_event (ArmingUpdate status) self = (Return tt, self, [])) ∧
  (let r := handle_event (SystemStatusEvent ALARM_RESTORE z) self in
   result r = Return tt ∧
   (arming_state (final r) = ArmingState.ARMED ↔
    arming_state self ≠ ArmingState.DISARMED) ∧
   _arming_mode (final r) = _arming_mode self).
Proof.
  simpl. rewrite status_ALARM, status_ALARM_RESTORE.
  rewrite _update_arming_state_result, _update_arming_state_final.
  split; [done|]. split.
  - intros status Hs Hmem. rewrite _handle_arming_update_run.
    unfold arming_update_target.
    rewrite bool_decide_false.
    2:{ intros ->.
        assert (ArmingUpdate.AREA_1_FULLY_ARMED ∈ [ArmingUpdate.AREA_1_ARMED])
          as H%list_elem_of_singleton by (apply Hmem; by right).
        done. }
    rewrite bool_decide_false.
    2:{ intros [H|H]%Hmem; done. }
    rewrite bool_decide_true by done.
    rewrite <- Hs. apply _update_arming_state_same.
  - case_bool_decide as Hd.
    + rewrite _update_arming_state_result, _update_arming_state_final.
      by rewrite _update_arming_state_mode.
    + unfold result, final; simpl. rewrite Hd.
      split; [done|]. split; [|done]. split; intros H; done.
Qed.
End system_status.

(** ** The zone mutator *)

Lemma py_index_lt (len : nat) (i : Z) (k : nat) :
  py_index len i = Some k → (k < len)%nat.
Proof.
  unfold py_index. repeat case_bool_decide; intros [= <-]; lia.
Qed.

(** Zone identifiers 1 to [len] address the positions 0 to [len - 1]. *)
Lemma py_index_zone (len : nat) (i : nat) :
  (i < len)%nat → py_index len (Z.of_nat i + 1 - 1) = Some i.
Proof.
  intros Hi. unfold py_index. rewrite bool_decide_true by lia.
  f_equal. lia.
Qed.

Lemma _update_zone_None (state : bool) (self : Alarm) :
  _update_zone None state self = (Raise TypeError, self, []).
Proof. unfold _update_zone. by rewrite bind_get. Qed.

Lemma _update_zone_out_of_range (zid : Z) (state : bool) (self : Alarm) :
  py_index (length (zones self)) (zid - 1) = None →
  _update_zone (Some zid) state self = (Raise IndexError, self, []).
Proof. intros H. unfold _update_zone. by rewrite bind_get, H. Qed.

Lemma _update_zone_run (zid : Z) (state : bool) (self : Alarm)
    (k : nat) (zone : Zone) :
  py_index (length (zones self)) (zid - 1) = Some k →
  zones self !! k = Some zone →
  _update_zone (Some zid) state self =
    if bool_decide (triggered zone ≠ Some state)
    then (Return tt, with_zone_triggered k state self,
          zone_calls self zid state)
    else (Return tt, self, []).
Proof.
  intros Hk Hz. unfold _update_zone, zone_calls.
  rewrite bind_get, Hk, Hz. case_bool_decide; [|done].
  rewrite bind_modify, bind_get. simpl.
  by destruct (_on_zone_change self).
Qed.

(** Whether the value changed or not, the zone holds [state] afterwards. *)
Lemma with_zone_triggered_id (k : nat) (state : bool) (self : Alarm)
    (zone : Zone) :
  zones self !! k = Some zone → triggered zone = Some state →
  with_zone_triggered k state self = self.
Proof.
  intros Hz Ht. destruct self as [i s zs m f g]. unfold with_zone_triggered.
  simpl in *. f_equal. apply list_insert_id. rewrite Hz.
  destruct zone as [t]. simpl in Ht. by subst.
Qed.

Lemma _update_zone_final (zid : Z) (state : bool) (self : Alarm)
    (k : nat) :
  py_index (length (zones self)) (zid - 1) = Some k →
  result (_update_zone (Some zid) state self) = Return tt ∧
  final (_update_zone (Some zid) state self) = with_zone_triggered k state self.
Proof.
  intros Hk. pose proof (py_index_lt _ _ _ Hk) as Hlt.
  destruct (lookup_lt_is_Some_2 (zones self) k Hlt) as [zone Hz].
  rewrite (_update_zone_run _ _ _ _ _ Hk Hz).
  case_bool_decide as Hc; [done|]. split; [done|].
  unfold final; simpl. symmetry. eapply with_zone_triggered_id; [done|].
  by destruct (decide (triggered zone = Some state)).
Qed.

(** ** The zone-input handler *)

Lemma Zone_getitem_format (i : nat) (flag : ZoneUpdate.Zone) :
  zone_flags !! i = Some flag →
  ZoneUpdate.Zone_getitem ("ZONE_" +:+ pretty (Z.of_nat i + 1)) = Some flag.
Proof.
  do 16 (destruct i as [|i]; [by intros [= <-]|]). done.
Qed.

(** A loop over [enumerate] whose body only uses the position. *)
Lemma for_each_imap {A} (g : nat → M unit) (l : list A) :
  ∀ (f : nat → A → nat * A) (k : nat),
    (∀ i x, (f i x).1 = (k + i)%nat) →
    for_each (imap f l) (λ '(i, _), g i) = for_each (seq k (length l)) g.
Proof.
  induction l as [|x l IH]; intros f k Hf; [done|].
  simpl. specialize (Hf 0%nat x) as Hx. destruct (f 0%nat x) as [i y].
  simpl in Hx. rewrite Nat.add_0_r in Hx. subst i.
  f_equal. rewrite (IH (f ∘ S) (S k)); [done|].
  intros i z. simpl. rewrite Hf. lia.
Qed.

Lemma _handle_zone_input_update_loop (included_zones : list ZoneUpdate.Zone)
    (self : Alarm) :
  _handle_zone_input_update included_zones self =
    for_each (seq 0 (length (zones self))) (zone_step included_zones) self.
Proof.
  unfold _handle_zone_input_update. rewrite bind_get. unfold enumerate.
  by rewrite (for_each_imap (zone_step included_zones) _ pair 0%nat).
Qed.

Lemma zone_step_run (included_zones : list ZoneUpdate.Zone) (i : nat)
    (self : Alarm) :
  (i < length (zones self))%nat → (i < 16)%nat →
  zone_step included_zones i self =
    (Return tt,
     with_zone_triggered i (reported included_zones i) self,
     if bool_decide (zone_differs self i (reported included_zones i))
     then zone_calls self (Z.of_nat i + 1) (reported included_zones i)
     else []).
Proof.
  intros Hlen H16. unfold zone_step, reported.
  destruct (lookup_lt_is_Some_2 zone_flags i) as [flag Hflag]; [done|].
  rewrite (Zone_getitem_format i flag Hflag), Hflag.
  destruct (lookup_lt_is_Some_2 (zones self) i Hlen) as [zone Hz].
  assert (∀ b, zone_differs self i b ↔ triggered zone ≠ Some b) as Hd.
  { intros b. unfold zone_differs. rewrite Hz. simpl.
    split; intros H1 H2; apply H1; congruence. }
  assert (∀ b, _update_zone (Some (Z.of_nat i + 1)) b self =
     (Return tt, with_zone_triggered i b self,
      if bool_decide (zone_differs self i b)
      then zone_calls self (Z.of_nat i + 1) b else [])) as Hrun.
  { intros b.
    rewrite (_update_zone_run _ b self i zone (py_index_zone _ i Hlen) Hz).
    rewrite (bool_decide_ext _ _ (Hd b)).
    case_bool_decide as Hc; [done|].
    f_equal. f_equal. symmetry. eapply with_zone_triggered_id; [done|].
    by destruct (decide (triggered zone = Some b)). }
  case_bool_decide; apply Hrun.
Qed.

(** Running [m] first, when [m] is known to return. *)
Lemma bind_run {A B} (m : M A) (k : A → M B) (self s : Alarm) (x : A)
    (cs : list Call) :
  m self = (Return x, s, cs) →
  (m ≫= k) self = ((k x s).1.1, (k x s).1.2, cs ++ (k x s).2).
Proof.
  intros Hm. unfold mbind, M_bind. rewrite Hm.
  by destruct (k x s) as [[r s'] cs'].
Qed.

Lemma filter_ext_in {A} (P1 P2 : A → Prop)
    `{!∀ x, Decision (P1 x), !∀ x, Decision (P2 x)} (l : list A) :
  (∀ x, x ∈ l → P1 x ↔ P2 x) → filter P1 l = filter P2 l.
Proof.
  induction l as [|x l IH]; intros Hext; [done|].
  rewrite !filter_cons.
  rewrite IH by (intros y Hy; apply Hext; by right).
  assert (P1 x ↔ P2 x) as Hx by (apply Hext; by left).
  destruct (decide (P1 x)) as [H1|H1], (decide (P2 x)) as [H2|H2];
    try done; tauto.
Qed.

Section zone_input.
Variable included_zones : list ZoneUpdate.Zone.

Lemma zone_loop_calls_cons self i ks :
  zone_loop_calls included_zones self (i :: ks) =
    (if bool_decide (zone_differs self i (reported included_zones i))
     then zone_calls self (Z.of_nat i + 1) (reported included_zones i)
     else []) ++ zone_loop_calls included_zones self ks.
Proof.
  unfold zone_loop_calls, zone_calls.
  destruct (_on_zone_change self) as [f|]; [|by case_bool_decide].
  rewrite filter_cons. case_bool_decide.
  - by rewrite decide_True.
  - by rewrite decide_False.
Qed.

Lemma zone_loop_calls_skip self k b ks :
  k ∉ ks →
  zone_loop_calls included_zones (with_zone_triggered k b self) ks =
    zone_loop_calls included_zones self ks.
Proof.
  intros Hk. unfold zone_loop_calls. simpl.
  destruct (_on_zone_change self) as [f|]; [|done]. f_equal.
  apply filter_ext_in. intros i Hi. unfold zone_differs. simpl.
  rewrite list_lookup_insert_ne; [done|]. intros ->. done.
Qed.

Lemma zone_loop_run (n : nat) :
  ∀ (k : nat) (self : Alarm),
    (k + n ≤ length (zones self))%nat → (k + n ≤ 16)%nat →
    for_each (seq k n) (zone_step included_zones) self =
      (Return tt, zone_loop_final included_zones self (seq k n),
       zone_loop_calls included_zones self (seq k n)).
Proof.
  induction n as [|n IH]; intros k self Hlen H16.
  - simpl. unfold zone_loop_calls. by destruct (_on_zone_change self).
  - simpl seq. simpl for_each.
    rewrite (bind_run _ _ _ _ _ _ (zone_step_run included_zones k self
                                      ltac:(lia) ltac:(lia))).
    rewrite IH by (simpl; rewrite ?length_insert; lia). simpl.
    rewrite zone_loop_calls_cons. f_equal. f_equal.
    apply zone_loop_calls_skip. rewrite elem_of_seq. lia.
Qed.

Lemma zone_loop_final_fields self ks :
  _infer_arming_state (zone_loop_final included_zones self ks) = _infer_arming_state self ∧
  arming_state (zone_loop_final included_zones self ks) = arming_state self ∧
  _arming_mode (zone_loop_final included_zones self ks) = _arming_mode self ∧
  _on_state_change (zone_loop_final included_zones self ks) = _on_state_change self ∧
  _on_zone_change (zone_loop_final included_zones self ks) = _on_zone_change self ∧
  length (zones (zone_loop_final included_zones self ks)) = length (zones self).
Proof.
  revert self. induction ks as [|i ks IH]; intros self; [done|].
  simpl. destruct (IH (with_zone_triggered i (reported included_zones i) self))
    as (-> & -> & -> & -> & -> & ->).
  simpl. by rewrite length_insert.
Qed.

Lemma zone_loop_final_lookup self ks (j : nat) :
  (j < length (zones self))%nat →
  zones (zone_loop_final included_zones self ks) !! j =
    if bool_decide (j ∈ ks)
    then Some (mkZone (Some (reported included_zones j)))
    else zones self !! j.
Proof.
  revert self. induction ks as [|i ks IH]; intros self Hj; [done|].
  simpl. rewrite IH by (simpl; by rewrite length_insert). simpl.
  destruct (decide (j ∈ ks)) as [Hin|Hnin].
  - rewrite !bool_decide_true; [done| by right | done].
  - rewrite (bool_decide_false (j ∈ ks)) by done.
    destruct (decide (i = j)) as [->|Hne].
    + rewrite bool_decide_true by (by left).
      by rewrite list_lookup_insert_eq.
    + rewrite bool_decide_false.
      * by rewrite list_lookup_insert_ne.
      * intros [?|?]%elem_of_cons; done.
Qed.
End zone_input.

(** C4: on a ZoneUpdate of the kind "zone input unsealed report", handled
    by an instance with its 16 zones, every zone ends up triggered exactly
    when its flag is in the included set, whatever it held before; and the
    zone-change listener is called, in zone order, once for each zone whose
    stored value differed from the new one, and for no other. *)
Theorem zone_input_update (self : Alarm)
    (included_zones : list ZoneUpdate.Zone) :
  length (zones self) = 16%nat →
  let r := handle_event
             (ZoneUpdate ZoneUpdate.ZONE_INPUT_UNSEALED included_zones) self in
  result r = Return tt ∧
  length (zones (final r)) = 16%nat ∧
  (∀ (i : nat) flag,
     zone_flags !! i = Some flag →
     zones (final r) !! i =
       Some (mkZone (Some (bool_decide (flag ∈ included_zones))))) ∧
  (∀ f, _on_zone_change self = Some f →
     calls r =
       (λ i : nat, ZoneChange f (Z.of_nat i + 1) (reported included_zones i))
         <$> filter (λ i, zone_differs self i (reported included_zones i))
               (seq 0 16)) ∧
  (_on_zone_change self = None → calls r = []).
Proof.
  intros Hlen r. subst r. simpl.
  rewrite _handle_zone_input_update_loop, Hlen.
  rewrite zone_loop_run by lia. unfold result, final, calls. cbn [fst snd].
  split; [done|]. split; [|split; [|split]].
  - destruct (zone_loop_final_fields included_zones self (seq 0 16))
      as (_ & _ & _ & _ & _ & ->). done.
  - intros i flag Hflag.
    assert (i < 16)%nat as Hi by (by apply lookup_lt_Some in Hflag).
    rewrite zone_loop_final_lookup by lia.
    rewrite bool_decide_true by (rewrite elem_of_seq; lia).
    unfold reported. by rewrite Hflag.
  - intros f Hf. unfold zone_loop_calls. by rewrite Hf.
  - intros Hf. unfold zone_loop_calls. by rewrite Hf.
Qed.

Lemma zone_input_update_witness :
  let self := on_zone_change 1%nat (init false) in
  let r := handle_event
             (ZoneUpdate ZoneUpdate.ZONE_INPUT_UNSEALED
                [ZoneUpdate.ZONE_3; ZoneUpdate.ZONE_7]) self in
  length (zones self) = 16%nat ∧
  zones (final r) !! 2%nat = Some (mkZone (Some true)) ∧
  zones (final r) !! 3%nat = Some (mkZone (Some false)).
Proof.
  intros self r.
  destruct (zone_input_update self [ZoneUpdate.ZONE_3; ZoneUpdate.ZONE_7]
              eq_refl) as (_ & _ & Hz & _).
  split; [reflexivity|]. split.
  - exact (Hz 2%nat ZoneUpdate.ZONE_3 eq_refl).
  - exact (Hz 3%nat ZoneUpdate.ZONE_4 eq_refl).
Defined.

(** ** Zone 0 *)

(** C9: a SEALED or UNSEALED event with zone 0, handled by an instance with
    its 16 zones, is not ignored: it reads the zone stored in slot 16 and,
    where the value differs, writes it there and calls the zone-change
    listener with zone id 0. *)
Theorem zone_zero_hits_slot_16 (self : Alarm)
    (type : SystemStatusEvent.EventType) (state : bool) (zone16 : Zone) :
  (type = SystemStatusEvent.UNSEALED ∧ state = true) ∨
  (type = SystemStatusEvent.SEALED ∧ state = false) →
  length (zones self) = 16%nat →
  zones self !! 15%nat = Some zone16 →
  let r := handle_event (SystemStatusEvent type (Some 0)) self in
  result r = Return tt ∧
  (triggered zone16 ≠ Some state →
     final r = with_zone_triggered 15 state self ∧
     zones (final r) !! 15%nat = Some (mkZone (Some state)) ∧
     (∀ f, _on_zone_change self = Some f →
           calls r = [ZoneChange f 0 state])) ∧
  (triggered zone16 = Some state → final r = self ∧ calls r = []).
Proof.
  intros Htype Hlen H16 r. subst r. simpl.
  assert (_handle_system_status_event type (Some 0) self =
            _update_zone (Some 0) state self) as ->.
  { destruct Htype as [[-> ->] | [-> ->]];
      [apply status_UNSEALED | apply status_SEALED]. }
  assert (py_index (length (zones self)) (0 - 1) = Some 15%nat) as Hk
    by (by rewrite Hlen).
  rewrite (_update_zone_run 0 state self 15 zone16 Hk H16).
  split; [by case_bool_decide|]. split.
  - intros Hne. rewrite bool_decide_true by done.
    unfold final, calls; simpl. split; [done|]. split.
    + apply list_lookup_insert_eq. apply lookup_lt_Some in H16. done.
    + intros f Hf. unfold zone_calls. by rewrite Hf.
  - intros Heq. by rewrite bool_decide_false by (by intros ?).
Qed.

Lemma zone_zero_hits_slot_16_witness :
  let self := on_zone_change 1%nat (init false) in
  let r := handle_event
             (SystemStatusEvent SystemStatusEvent.UNSEALED (Some 0)) self in
  length (zones self) = 16%nat ∧
  zones (final r) !! 15%nat = Some (mkZone (Some true)) ∧
  calls r = [ZoneChange 1%nat 0 true].
Proof.
  intros self r.
  destruct (zone_zero_hits_slot_16 self SystemStatusEvent.UNSEALED true
              (mkZone None) (or_introl (conj eq_refl eq_refl)) eq_refl eq_refl)
    as (_ & Hchg & _).
  destruct (Hchg ltac:(discriminate)) as (_ & Hz & Hc).
  split; [reflexivity|]. split; [exact Hz|]. exact (Hc 1%nat eq_refl).
Defined.

(** ** Notification of the arming mode *)

(** C10: an ARMED_x event handled while the state is ARMING returns, leaves
    the mode of the event as the recorded mode, whatever mode was recorded
    before, leaves the state ARMING and everything else as it was, and calls
    no listener. *)
Theorem mode_change_alone_not_notified (self : Alarm)
    (type : SystemStatusEvent.EventType) (mode : ArmingMode.t)
    (z : option Z) :
  (type, mode) ∈
    [ (SystemStatusEvent.ARMED_AWAY, ArmingMode.ARMED_AWAY);
      (SystemStatusEvent.ARMED_HOME, ArmingMode.ARMED_HOME);
      (SystemStatusEvent.ARMED_DAY, ArmingMode.ARMED_DAY);
      (SystemStatusEvent.ARMED_NIGHT, ArmingMode.ARMED_NIGHT);
      (SystemStatusEvent.ARMED_VACATION, ArmingMode.ARMED_VACATION);
      (SystemStatusEvent.ARMED_HIGHEST, ArmingMode.ARMED_HIGHEST) ] →
  arming_state self = ArmingState.ARMING →
  let r := handle_event (SystemStatusEvent type z) self in
  result r = Return tt ∧
  calls r = [] ∧
  _arming_mode (final r) = Some mode ∧
  arming_state (final r) = ArmingState.ARMING ∧
  zones (final r) = zones self ∧
  _infer_arming_state (final r) = _infer_arming_state self ∧
  _on_state_change (final r) = _on_state_change self ∧
  _on_zone_change (final r) = _on_zone_change self.
Proof.
  intros Hmap Hs r. subst r. simpl.
  rewrite (status_ARMED type mode z self Hmap).
  rewrite _update_arming_state_run. simpl.
  rewrite bool_decide_false by (by intros H).
  unfold result, calls, final. simpl. by rewrite Hs.
Qed.

Lemma mode_change_alone_not_notified_witness :
  let self :=
    with_arming_mode (Some ArmingMode.ARMED_AWAY)
      (with_arming_state ArmingState.ARMING
         (on_state_change 1%nat (init false))) in
  let r := handle_event
             (SystemStatusEvent SystemStatusEvent.ARMED_HOME (Some 0)) self in
  arming_state self = ArmingState.ARMING ∧
  _arming_mode self = Some ArmingMode.ARMED_AWAY ∧
  _arming_mode (final r) = Some ArmingMode.ARMED_HOME ∧ calls r = [].
Proof.
  intros self r.
  destruct (mode_change_alone_not_notified self SystemStatusEvent.ARMED_HOME
              ArmingMode.ARMED_HOME (Some 0))
    as (_ & Hc & Hm & _); [compute_done|reflexivity|].
  split; [reflexivity|]. split; [reflexivity|].
  split; [exact Hm|exact Hc].
Defined.

(** ** Handling an event twice *)

Lemma NoDup_short {A} (l : list A) : (length l ≤ 1)%nat → NoDup l.
Proof.
  destruct l as [|x [|y l]]; simpl; intros H.
  - constructor.
  - apply NoDup_singleton.
  - lia.
Qed.

Lemma _update_arming_state_calls (state : ArmingState.t) (self : Alarm) :
  (length (calls (_update_arming_state state self)) ≤ 1)%nat.
Proof.
  rewrite _update_arming_state_run. unfold state_calls.
  case_bool_decide; [|simpl; lia].
  unfold calls; simpl. destruct (_on_state_change self); simpl; lia.
Qed.

(** Once [_update_arming_state state] has run, running it again changes
    nothing and calls nothing. *)
Lemma _update_arming_state_settled (state : ArmingState.t) (self : Alarm) :
  _update_arming_state state (final (_update_arming_state state self)) =
    (Return tt, final (_update_arming_state state self), []).
Proof.
  rewrite (_update_arming_state_run state (final _)).
  rewrite bool_decide_false; [done|].
  intros H. apply H. apply _update_arming_state_final.
Qed.

Lemma _update_arming_state_infer (state : ArmingState.t) (self : Alarm) :
  _infer_arming_state (final (_update_arming_state state self)) =
    _infer_arming_state self.
Proof. rewrite _update_arming_state_run. by case_bool_decide. Qed.

(** The state chosen by the arming-update rules is chosen again when the
    rules are applied in that state. *)
Lemma arming_update_target_settled (self self' : Alarm)
    (status : list ArmingUpdate.ArmingStatus) :
  _infer_arming_state self' = _infer_arming_state self →
  arming_state self' = arming_update_target self status →
  arming_update_target self' status = arming_state self'.
Proof.
  intros Hi Hs. rewrite Hs. unfold arming_update_target at 1.
  rewrite Hi, Hs. unfold arming_update_target.
  repeat case_bool_decide; simpl; try done;
    destruct (_infer_arming_state self); try done;
    repeat case_bool_decide; try done; congruence.
Qed.

Lemma with_arming_mode_id (m : option ArmingMode.t) (self : Alarm) :
  _arming_mode self = m → with_arming_mode m self = self.
Proof. intros <-. by destruct self. Qed.

Lemma _update_zone_calls (z : option Z) (state : bool) (self : Alarm) :
  (length (calls (_update_zone z state self)) ≤ 1)%nat.
Proof.
  destruct z as [zid|]; [|by rewrite _update_zone_None; simpl; lia].
  destruct (py_index (length (zones self)) (zid - 1)) as [k|] eqn:Hk.
  - pose proof (py_index_lt _ _ _ Hk) as Hlt.
    destruct (lookup_lt_is_Some_2 (zones self) k Hlt) as [zone Hz].
    rewrite (_update_zone_run _ _ _ _ _ Hk Hz). unfold zone_calls.
    case_bool_decide; unfold calls; simpl; [|lia].
    destruct (_on_zone_change self); simpl; lia.
  - rewrite _update_zone_out_of_range by done. simpl; lia.
Qed.

(** Once [_update_zone] has run, running it again with the same arguments
    ends the same way, changes nothing and calls nothing. *)
Lemma _update_zone_settled (z : option Z) (state : bool) (self : Alarm) :
  _update_zone z state (final (_update_zone z state self)) =
    (result (_update_zone z state self),
     final (_update_zone z state self), []).
Proof.
  destruct z as [zid|]; [|by rewrite !_update_zone_None].
  destruct (py_index (length (zones self)) (zid - 1)) as [k|] eqn:Hk.
  - pose proof (py_index_lt _ _ _ Hk) as Hlt.
    destruct (_update_zone_final zid state self k Hk) as [-> ->].
    assert (zones (with_zone_triggered k state self) !! k =
              Some (mkZone (Some state))) as Hz
      by (by apply list_lookup_insert_eq).
    rewrite (_update_zone_run zid state _ k (mkZone (Some state)));
      [| |exact Hz].
    + by rewrite bool_decide_false by (by intros H).
    + simpl. by rewrite length_insert.
  - rewrite (_update_zone_out_of_range _ _ self) by done.
    unfold final, result; simpl. by rewrite _update_zone_out_of_range.
Qed.

Lemma zone_loop_settled (included_zones : list ZoneUpdate.Zone)
    (ks : list nat) :
  ∀ self : Alarm,
    (∀ i, i ∈ ks →
       zones self !! i = Some (mkZone (Some (reported included_zones i)))) →
    zone_loop_final included_zones self ks = self ∧
    zone_loop_calls included_zones self ks = [].
Proof.
  induction ks as [|i ks IH]; intros self Hall.
  - split; [done|]. unfold zone_loop_calls. by destruct (_on_zone_change self).
  - assert (with_zone_triggered i (reported included_zones i) self = self)
      as Hid.
    { eapply with_zone_triggered_id; [apply Hall; by left|done]. }
    destruct (IH self) as [IH1 IH2]; [intros j Hj; apply Hall; by right|].
    split.
    + simpl. by rewrite Hid.
    + rewrite zone_loop_calls_cons, IH2, bool_decide_false; [done|].
      unfold zone_differs. rewrite Hall by (by left). by intros H.
Qed.

Lemma zone_loop_calls_subjects (included_zones : list ZoneUpdate.Zone)
    (self : Alarm) (ks : list nat) :
  NoDup ks →
  NoDup (call_subject <$> zone_loop_calls included_zones self ks).
Proof.
  intros Hks. unfold zone_loop_calls.
  destruct (_on_zone_change self) as [f|]; [|constructor].
  rewrite <- list_fmap_compose.
  apply NoDup_fmap_2; [|by apply NoDup_filter].
  intros i j Hij. simpl in Hij. injection Hij. lia.
Qed.

Lemma status_ARMED_settled (type : SystemStatusEvent.EventType)
    (mode : ArmingMode.t) (z : option Z) (self : Alarm) :
  (type, mode) ∈ ARM_EVENTS_MAP →
  _handle_system_status_event type z
      (final (_handle_system_status_event type z self)) =
    (result (_handle_system_status_event type z self),
     final (_handle_system_status_event type z self), []).
Proof.
  intros Hmap. rewrite (status_ARMED type mode z self Hmap).
  rewrite (status_ARMED type mode z _ Hmap).
  rewrite with_arming_mode_id by (by rewrite _update_arming_state_mode).
  rewrite _update_arming_state_result.
  apply _update_arming_state_settled.
Qed.

Lemma _handle_system_status_event_calls
    (type : SystemStatusEvent.EventType) (z : option Z) (self : Alarm) :
  (length (calls (_handle_system_status_event type z self)) ≤ 1)%nat.
Proof.
  assert (∀ mode, (type, mode) ∈ ARM_EVENTS_MAP →
    (length (calls (_handle_system_status_event type z self)) ≤ 1)%nat) as Harm.
  { intros mode Hmap. rewrite (status_ARMED type mode z self Hmap).
    apply _update_arming_state_calls. }
  destruct type.
  all: try solve [rewrite status_ignored;
                    [simpl; lia | unfold ignored_type; eauto ..]].
  all: try solve [apply (Harm ArmingMode.ARMED_AWAY); compute_done].
  all: try solve [apply (Harm ArmingMode.ARMED_HOME); compute_done].
  all: try solve [apply (Harm ArmingMode.ARMED_DAY); compute_done].
  all: try solve [apply (Harm ArmingMode.ARMED_NIGHT); compute_done].
  all: try solve [apply (Harm ArmingMode.ARMED_VACATION); compute_done].
  all: try solve [apply (Harm ArmingMode.ARMED_HIGHEST); compute_done].
  - rewrite status_UNSEALED. apply _update_zone_calls.
  - rewrite status_SEALED. apply _update_zone_calls.
  - rewrite status_ALARM. apply _update_arming_state_calls.
  - rewrite status_ALARM_RESTORE.
    case_bool_decide; [apply _update_arming_state_calls | simpl; lia].
  - rewrite status_ENTRY_DELAY_START. apply _update_arming_state_calls.
  - rewrite status_EXIT_DELAY_START. apply _update_arming_state_calls.
  - rewrite status_EXIT_DELAY_END.
    case_bool_decide; [apply _update_arming_state_calls | simpl; lia].
  - rewrite status_DISARMED. apply _update_arming_state_calls.
Qed.

(** What the second handling of an event does: it ends as the first did,
    on the instance the first left, without a call. *)
Lemma handle_event_settled (self : Alarm) (event : BaseEvent) :
  length (zones self) = 16%nat →
  handle_event event (final (handle_event event self)) =
    (result (handle_event event self), final (handle_event event self), []).
Proof.
  intros Hlen. destruct event as [status|request included|type z|]; simpl.
  - rewrite !_handle_arming_update_run.
    set (self' := final (_update_arming_state _ self)).
    rewrite (arming_update_target_settled self self').
    + rewrite _update_arming_state_same. by rewrite _update_arming_state_result.
    + apply _update_arming_state_infer.
    + apply _update_arming_state_final.
  - case_bool_decide; [|done].
    rewrite (_handle_zone_input_update_loop included self), Hlen.
    rewrite zone_loop_run by lia. unfold result, final. cbn [fst snd].
    rewrite _handle_zone_input_update_loop.
    destruct (zone_loop_final_fields included self (seq 0 16))
      as (_ & _ & _ & _ & _ & Hl).
    rewrite Hl, Hlen. rewrite zone_loop_run by lia.
    destruct (zone_loop_settled included (seq 0 16)
                (zone_loop_final included self (seq 0 16))) as [-> ->];
      [|done].
    intros i Hi. rewrite zone_loop_final_lookup.
    + by rewrite bool_decide_true.
    + apply elem_of_seq in Hi. lia.
  - destruct type.
    all: try solve [rewrite !status_ignored;
                      [done | unfold ignored_type; eauto ..]].
    + rewrite !status_UNSEALED. apply _update_zone_settled.
    + rewrite !status_SEALED. apply _update_zone_settled.
    + rewrite !status_ALARM, _update_arming_state_result.
      apply _update_arming_state_settled.
    + rewrite (status_ALARM_RESTORE z self). case_bool_decide as Hd.
      * rewrite status_ALARM_RESTORE, _update_arming_state_result.
        rewrite bool_decide_true
          by (by rewrite _update_arming_state_final).
        apply _update_arming_state_settled.
      * unfold final, result; simpl. rewrite status_ALARM_RESTORE.
        by rewrite bool_decide_false by (intros H; by apply H).
    + rewrite !status_ENTRY_DELAY_START, _update_arming_state_result.
      apply _update_arming_state_settled.
    + rewrite !status_EXIT_DELAY_START, _update_arming_state_result.
      apply _update_arming_state_settled.
    + rewrite (status_EXIT_DELAY_END z self). case_bool_decide as Hd.
      * rewrite status_EXIT_DELAY_END, _update_arming_state_result.
        by rewrite bool_decide_false
          by (by rewrite _update_arming_state_final).
      * unfold final, result; simpl. rewrite status_EXIT_DELAY_END.
        by rewrite bool_decide_false.
    + by apply (status_ARMED_settled _ ArmingMode.ARMED_AWAY); compute_done.
    + by apply (status_ARMED_settled _ ArmingMode.ARMED_HOME); compute_done.
    + by apply (status_ARMED_settled _ ArmingMode.ARMED_DAY); compute_done.
    + by apply (status_ARMED_settled _ ArmingMode.ARMED_NIGHT); compute_done.
    + by apply (status_ARMED_settled _ ArmingMode.ARMED_VACATION); compute_done.
    + by apply (status_ARMED_settled _ ArmingMode.ARMED_HIGHEST); compute_done.
    + rewrite (status_DISARMED z self), status_DISARMED.
      rewrite with_arming_mode_id by (by rewrite _update_arming_state_mode).
      rewrite _update_arming_state_result.
      apply _update_arming_state_settled.
  - done.
Qed.

(** C8: handling the same event a second time, right after the first, ends
    as the first did, leaves the instance (arming state, recorded mode, the
    16 zone values) as the first left it and calls no listener; and the
    first handling calls a listener at most once for the arming state and
    at most once for each zone id. *)
Theorem handle_event_twice (self : Alarm) (event : BaseEvent) :
  length (zones self) = 16%nat →
  let r1 := handle_event event self in
  let r2 := handle_event event (final r1) in
  NoDup (call_subject <$> calls r1) ∧
  result r2 = result r1 ∧
  final r2 = final r1 ∧
  calls r2 = [].
Proof.
  intros Hlen r1 r2. subst r1 r2.
  rewrite (handle_event_settled self event Hlen).
  split; [|done].
  destruct event as [status|request included|type z|]; simpl.
  - rewrite _handle_arming_update_run. apply NoDup_short.
    rewrite length_fmap. apply _update_arming_state_calls.
  - case_bool_decide; [|constructor].
    rewrite _handle_zone_input_update_loop, Hlen, zone_loop_run by lia.
    apply zone_loop_calls_subjects, NoDup_seq.
  - apply NoDup_short. rewrite length_fmap.
    apply _handle_system_status_event_calls.
  - constructor.
Qed.

Lemma handle_event_twice_witness :
  let self := on_state_change 1%nat (init false) in
  let e := SystemStatusEvent SystemStatusEvent.ALARM (Some 0) in
  length (zones self) = 16%nat ∧
  calls (handle_event e self) =
    [StateChange 1%nat ArmingState.TRIGGERED None] ∧
  calls (handle_event e (final (handle_event e self))) = [].
Proof.
  intros self e. split; [reflexivity|]. split; [reflexivity|].
  by destruct (handle_event_twice self e eq_refl) as (_ & _ & _ & H).
Defined.

(** ** What every event preserves *)

Lemma final_bind {A B} (m : M A) (k : A → M B) (self : Alarm) :
  final ((m ≫= k) self) =
    match result (m self) with
    | Return x => final (k x (final (m self)))
    | Raise _ => final (m self)
    end.
Proof.
  unfold mbind, M_bind, final, result.
  destruct (m self) as [[[x|e] s] cs]; simpl; [|done].
  by destruct (k x s) as [[r s'] cs'].
Qed.

(** A property every run of the body preserves holds after the loop,
    however the loop ends. *)
Lemma for_each_final {A} (P : Alarm → Prop) (body : A → M unit) :
  (∀ x s, P s → P (final (body x s))) →
  ∀ xs s, P s → P (final (for_each xs body s)).
Proof.
  intros Hbody. induction xs as [|x xs IH]; intros s Hs; [done|].
  simpl. rewrite final_bind. specialize (Hbody x s Hs).
  destruct (result (body x s)); [by apply IH|done].
Qed.

Lemma only_zones_changed_refl (self : Alarm) : only_zones_changed self self.
Proof. by repeat split. Qed.

Lemma only_zones_changed_trans (s1 s2 s3 : Alarm) :
  only_zones_changed s1 s2 → only_zones_changed s2 s3 →
  only_zones_changed s1 s3.
Proof.
  intros (Ha & Hb & Hc & Hd & He & Hf) (Ha' & Hb' & Hc' & Hd' & He' & Hf').
  repeat split; congruence.
Qed.

Lemma _update_zone_only_zones (z : option Z) (state : bool) (self : Alarm) :
  only_zones_changed self (final (_update_zone z state self)).
Proof.
  destruct z as [zid|];
    [|rewrite _update_zone_None; apply only_zones_changed_refl].
  destruct (py_index (length (zones self)) (zid - 1)) as [k|] eqn:Hk.
  - destruct (_update_zone_final zid state self k Hk) as [_ ->].
    unfold only_zones_changed. simpl. by rewrite length_insert.
  - rewrite _update_zone_out_of_range by done. apply only_zones_changed_refl.
Qed.

Lemma _handle_zone_input_update_only_zones
    (included_zones : list ZoneUpdate.Zone) (self : Alarm) :
  only_zones_changed self
    (final (_handle_zone_input_update included_zones self)).
Proof.
  unfold _handle_zone_input_update. rewrite bind_get.
  apply (for_each_final (only_zones_changed self));
    [|apply only_zones_changed_refl].
  intros [i zone] s Hs. eapply only_zones_changed_trans; [exact Hs|].
  destruct (ZoneUpdate.Zone_getitem _);
    [|apply only_zones_changed_refl].
  case_bool_decide; apply _update_zone_only_zones.
Qed.

(** The final instance of the system-status handler, by event type. *)
Lemma _handle_system_status_event_final
    (type : SystemStatusEvent.EventType) (z : option Z) (self : Alarm) :
  let self' := final (_handle_system_status_event type z self) in
  only_zones_changed self self' ∨
  (∃ state, state ∈ armed_family ∧
            self' = final (_update_arming_state state self)) ∨
  (∃ mode, self' = final (_update_arming_state ArmingState.ARMING
                            (with_arming_mode (Some mode) self))) ∨
  self' = final (_update_arming_state ArmingState.DISARMED
                   (with_arming_mode None self)).
Proof.
  assert (∀ mode, (type, mode) ∈ ARM_EVENTS_MAP →
    ∃ mode, final (_handle_system_status_event type z self) =
            final (_update_arming_state ArmingState.ARMING
                     (with_arming_mode (Some mode) self))) as Harm.
  { intros mode Hmap. exists mode. by rewrite (status_ARMED type mode z self). }
  assert (∀ state, state ∈ armed_family →
    ∃ state', state' ∈ armed_family ∧
              final (_update_arming_state state self) =
              final (_update_arming_state state' self)) as Hfam by eauto.
  simpl. destruct type.
  all: try solve [left; rewrite status_ignored;
                    [apply only_zones_changed_refl
                    | unfold ignored_type; eauto ..]].
  all: try solve [right; right; left;
                  apply (Harm ArmingMode.ARMED_AWAY); compute_done].
  all: try solve [right; right; left;
                  apply (Harm ArmingMode.ARMED_HOME); compute_done].
  all: try solve [right; right; left;
                  apply (Harm ArmingMode.ARMED_DAY); compute_done].
  all: try solve [right; right; left;
                  apply (Harm ArmingMode.ARMED_NIGHT); compute_done].
  all: try solve [right; right; left;
                  apply (Harm ArmingMode.ARMED_VACATION); compute_done].
  all: try solve [right; right; left;
                  apply (Harm ArmingMode.ARMED_HIGHEST); compute_done].
  - left. rewrite status_UNSEALED. apply _update_zone_only_zones.
  - left. rewrite status_SEALED. apply _update_zone_only_zones.
  - right; left. rewrite status_ALARM. apply Hfam. compute_done.
  - rewrite status_ALARM_RESTORE. case_bool_decide.
    + right; left. apply Hfam. compute_done.
    + left. apply only_zones_changed_refl.
  - right; left. rewrite status_ENTRY_DELAY_START. apply Hfam. compute_done.
  - right; left. rewrite status_EXIT_DELAY_START. apply Hfam. compute_done.
  - rewrite status_EXIT_DELAY_END. case_bool_decide.
    + right; left. apply Hfam. compute_done.
    + left. apply only_zones_changed_refl.
  - right; right; right. by rewrite status_DISARMED.
Qed.

(** No event changes the configuration flag, the listeners or the number
    of zones. *)
Lemma handle_event_frame (event : BaseEvent) (self : Alarm) :
  frame self (final (handle_event event self)).
Proof.
  assert (∀ s s', only_zones_changed s s' → frame s s') as Hoz.
  { intros s s' (Ha & _ & _ & Hd & He & Hf). by repeat split. }
  assert (∀ state s, frame s (final (_update_arming_state state s))) as Hst.
  { intros state s. rewrite _update_arming_state_run.
    by case_bool_decide. }
  destruct event as [status|request included|type z|]; simpl.
  - rewrite _handle_arming_update_run. apply Hst.
  - case_bool_decide; [|done].
    apply Hoz, _handle_zone_input_update_only_zones.
  - destruct (_handle_system_status_event_final type z self)
      as [H | [(state & _ & ->) | [(mode & ->) | ->]]].
    + by apply Hoz.
    + apply Hst.
    + apply (Hst _ (with_arming_mode (Some mode) self)).
    + apply (Hst _ (with_arming_mode None self)).
  - done.
Qed.

(** The zones collection has 16 entries in every instance reached from a
    fresh one, whatever the events and however their handling ends. *)
Lemma handle_events_16_zones (events : list BaseEvent) (self : Alarm) :
  length (zones self) = 16%nat →
  length (zones (final (handle_events events self))) = 16%nat.
Proof.
  apply (for_each_final (λ s, length (zones s) = 16%nat)).
  intros e s Hs. destruct (handle_event_frame e s) as (_ & _ & _ & ->). done.
Qed.

Lemma handle_event_mode_invariant (event : BaseEvent) (self : Alarm) :
  _infer_arming_state self = true →
  mode_only_when_armed self →
  mode_only_when_armed (final (handle_event event self)).
Proof.
  intros Hinfer Hinv.
  assert (∀ s s', only_zones_changed s s' → mode_only_when_armed s →
                  mode_only_when_armed s') as Hoz.
  { unfold mode_only_when_armed.
    intros s s' (_ & Hst & Hmd & _) Hs Hm. rewrite Hst. apply Hs.
    by rewrite <- Hmd. }
  assert (∀ state s, state ∈ armed_family →
    mode_only_when_armed (final (_update_arming_state state s))) as Hfam.
  { intros state s Hin _. by rewrite _update_arming_state_final. }
  destruct event as [status|request included|type z|]; simpl.
  - rewrite _handle_arming_update_run.
    unfold mode_only_when_armed.
    rewrite _update_arming_state_final, _update_arming_state_mode.
    intros Hm. specialize (Hinv Hm). unfold arming_update_target.
    rewrite Hinfer.
    repeat case_bool_decide; simpl; try done; try compute_done;
      match goal with
      | Hu : arming_state self = ArmingState.UNKNOWN |- _ =>
          exfalso; revert Hinv; rewrite Hu; compute_done
      end.
  - case_bool_decide; [|done].
    eapply Hoz; [apply _handle_zone_input_update_only_zones|done].
  - destruct (_handle_system_status_event_final type z self)
      as [H | [(state & Hin & ->) | [(mode & ->) | ->]]].
    + by eapply Hoz.
    + by apply Hfam.
    + apply Hfam. compute_done.
    + unfold mode_only_when_armed. rewrite _update_arming_state_mode.
      by intros H.
  - done.
Qed.

(** With inference enabled, in every instance reached from one that
    satisfies it (a fresh instance does), the recorded mode is absent unless
    the arming state is of the arming/armed family. *)
Lemma arming_mode_invariant_with_inference (events : list BaseEvent)
    (self : Alarm) :
  _infer_arming_state self = true →
  mode_only_when_armed self →
  mode_only_when_armed (final (handle_events events self)).
Proof.
  intros Hinfer Hinv.
  apply (for_each_final
           (λ s, _infer_arming_state s = true ∧ mode_only_when_armed s)
           handle_event); [|done].
  intros e s [Hi Hm]. split.
  - destruct (handle_event_frame e s) as (-> & _). done.
  - by apply handle_event_mode_invariant.
Qed.

(** ** Errors *)

Lemma _handle_system_status_event_result
    (type : SystemStatusEvent.EventType) (z : option Z) (self : Alarm) :
  type ≠ SystemStatusEvent.UNSEALED → type ≠ SystemStatusEvent.SEALED →
  result (_handle_system_status_event type z self) = Return tt.
Proof.
  intros Hu Hs.
  assert (∀ mode, (type, mode) ∈ ARM_EVENTS_MAP →
    result (_handle_system_status_event type z self) = Return tt) as Harm.
  { intros mode Hmap. rewrite (status_ARMED type mode z self Hmap).
    apply _update_arming_state_result. }
  destruct type; try done.
  all: try solve [rewrite status_ignored;
                    [done | unfold ignored_type; eauto ..]].
  all: try solve [apply (Harm ArmingMode.ARMED_AWAY); compute_done].
  all: try solve [apply (Harm ArmingMode.ARMED_HOME); compute_done].
  all: try solve [apply (Harm ArmingMode.ARMED_DAY); compute_done].
  all: try solve [apply (Harm ArmingMode.ARMED_NIGHT); compute_done].
  all: try solve [apply (Harm ArmingMode.ARMED_VACATION); compute_done].
  all: try solve [apply (Harm ArmingMode.ARMED_HIGHEST); compute_done].
  - rewrite status_ALARM. apply _update_arming_state_result.
  - rewrite status_ALARM_RESTORE.
    case_bool_decide; [apply _update_arming_state_result | done].
  - rewrite status_ENTRY_DELAY_START. apply _update_arming_state_result.
  - rewrite status_EXIT_DELAY_START. apply _update_arming_state_result.
  - rewrite status_EXIT_DELAY_END.
    case_bool_decide; [apply _update_arming_state_result | done].
  - rewrite status_DISARMED. apply _update_arming_state_result.
Qed.

(** C7, counterexample: a SEALED or UNSEALED event whose zone is 17, or
    absent, makes [handle_event] raise. *)
Lemma handle_event_raises :
  result (handle_event
            (SystemStatusEvent SystemStatusEvent.UNSEALED (Some 17))
            (init false)) = Raise IndexError ∧
  result (handle_event
            (SystemStatusEvent SystemStatusEvent.SEALED None)
            (init false)) = Raise TypeError.
Proof. split; reflexivity. Qed.

(** C7, amended: on an instance with its 16 zones, [handle_event] returns
    without an error for every event, provided the zone of a SEALED or
    UNSEALED report is present and within 1..16; an unrecognized variant, a
    ZoneUpdate of another request kind and a SystemStatusEvent of an
    unmatched type change nothing and call nothing; a SEALED or UNSEALED
    report whose zone is absent raises TypeError, one whose zone is above
    16 raises IndexError, both leaving the instance as it was and calling
    nothing. *)
Theorem handle_event_errors (self : Alarm) (event : BaseEvent) :
  length (zones self) = 16%nat →
  (zone_in_range event → result (handle_event event self) = Return tt) ∧
  (unmatched event → handle_event event self = (Return tt, self, [])) ∧
  (zone_report event None →
     handle_event event self = (Raise TypeError, self, [])) ∧
  (∀ zid, 16 < zid → zone_report event (Some zid) →
     handle_event event self = (Raise IndexError, self, [])).
Proof.
  intros Hlen. split; [|split; [|split]].
  - intros Hrange. destruct event as [status|request included|type z|]; simpl.
    + rewrite _handle_arming_update_run. apply _update_arming_state_result.
    + case_bool_decide; [|done].
      by rewrite _handle_zone_input_update_loop, Hlen, zone_loop_run by lia.
    + destruct (decide (type = SystemStatusEvent.UNSEALED)) as [->|Hu].
      { destruct (Hrange z) as (zid & -> & Hz); [by left|].
        rewrite status_UNSEALED.
        apply (_update_zone_final zid true self (Z.to_nat (zid - 1))).
        rewrite Hlen. unfold py_index. by rewrite bool_decide_true by lia. }
      destruct (decide (type = SystemStatusEvent.SEALED)) as [->|Hs].
      { destruct (Hrange z) as (zid & -> & Hz); [by right|].
        rewrite status_SEALED.
        apply (_update_zone_final zid false self (Z.to_nat (zid - 1))).
        rewrite Hlen. unfold py_index. by rewrite bool_decide_true by lia. }
      by apply _handle_system_status_event_result.
    + done.
  - destruct event as [status|request included|type z|]; simpl; try done.
    + intros Hreq. by rewrite bool_decide_false.
    + apply status_ignored.
  - intros [-> | ->]; simpl.
    + by rewrite status_UNSEALED, _update_zone_None.
    + by rewrite status_SEALED, _update_zone_None.
  - intros zid Hzid Hrep.
    assert (py_index (length (zones self)) (zid - 1) = None) as Hk.
    { rewrite Hlen. unfold py_index. by rewrite !bool_decide_false by lia. }
    destruct Hrep as [-> | ->]; simpl.
    + by rewrite status_UNSEALED, _update_zone_out_of_range.
    + by rewrite status_SEALED, _update_zone_out_of_range.
Qed.

Lemma handle_event_errors_witness :
  let self := init false in
  let event := SystemStatusEvent SystemStatusEvent.UNSEALED (Some 16) in
  length (zones self) = 16%nat ∧
  zone_in_range event ∧
  result (handle_event event self) = Return tt.
Proof.
  intros self event.
  assert (Hrange : zone_in_range event).
  { intros zone [H | H]; [|discriminate H].
    injection H as <-. exists 16. split; [reflexivity|lia]. }
  split; [reflexivity|]. split; [exact Hrange|].
  exact (proj1 (handle_event_errors self event eq_refl) Hrange).
Defined.

(** ** The recorded mode on the way to DISARMED *)

(** C3, on the code: after ARMED_AWAY, an ArmingUpdate with no flag, handled
    with inference disabled, takes the state to DISARMED through the
    fallback rule and leaves the recorded mode at ARMED_AWAY; the
    state-change listener receives DISARMED together with that mode.  The
    DISARMED event, from the same state, clears the mode. *)
Theorem fallback_disarm_keeps_mode :
  let self := on_state_change 1%nat (init false) in
  let armed := SystemStatusEvent SystemStatusEvent.ARMED_AWAY (Some 0) in
  let r := handle_events [armed; ArmingUpdate []] self in
  let r' := handle_events
              [armed; SystemStatusEvent SystemStatusEvent.DISARMED (Some 0)]
              self in
  (result r = Return tt ∧
   arming_state (final r) = ArmingState.DISARMED ∧
   _arming_mode (final r) = Some ArmingMode.ARMED_AWAY ∧
   calls r =
     [StateChange 1%nat ArmingState.ARMING (Some ArmingMode.ARMED_AWAY);
      StateChange 1%nat ArmingState.DISARMED (Some ArmingMode.ARMED_AWAY)]) ∧
  (arming_state (final r') = ArmingState.DISARMED ∧
   _arming_mode (final r') = None).
Proof. repeat split; reflexivity. Qed.

(** * Further properties of the handlers *)

(** ** Runs, piece by piece *)

Lemma calls_bind {A B} (m : M A) (k : A → M B) (self : Alarm) :
  calls ((m ≫= k) self) =
    match result (m self) with
    | Return x => calls (m self) ++ calls (k x (final (m self)))
    | Raise _ => calls (m self)
    end.
Proof.
  unfold mbind, M_bind, final, result, calls.
  destruct (m self) as [[[x|e] s] cs]; simpl; [|done].
  by destruct (k x s) as [[r s'] cs'].
Qed.

(** What holds of the calls of every run of the body holds of the calls of
    the loop. *)
Lemma for_each_calls {A} (P : Call → Prop) (body : A → M unit) :
  (∀ x s, Forall P (calls (body x s))) →
  ∀ xs s, Forall P (calls (for_each xs body s)).
Proof.
  intros Hbody. induction xs as [|x xs IH]; intros s; [constructor|].
  simpl. rewrite calls_bind. specialize (Hbody x s).
  destruct (result (body x s)); [|done].
  apply Forall_app. split; [done|apply IH].
Qed.

(** The three ways [_update_zone] ends. *)
Lemma _update_zone_cases (z : option Z) (state : bool) (self : Alarm) :
  (z = None ∧ _update_zone z state self = (Raise TypeError, self, [])) ∨
  (∃ zid, z = Some zid ∧
          py_index (length (zones self)) (zid - 1) = None ∧
          _update_zone z state self = (Raise IndexError, self, [])) ∨
  (∃ zid k zone, z = Some zid ∧
          py_index (length (zones self)) (zid - 1) = Some k ∧
          zones self !! k = Some zone ∧
          _update_zone z state self =
            if bool_decide (triggered zone ≠ Some state)
            then (Return tt, with_zone_triggered k state self,
                  zone_calls self zid state)
            else (Return tt, self, [])).
Proof.
  destruct z as [zid|]; [|left; by rewrite _update_zone_None].
  destruct (py_index (length (zones self)) (zid - 1)) as [k|] eqn:Hk.
  - pose proof (py_index_lt _ _ _ Hk) as Hlt.
    destruct (lookup_lt_is_Some_2 (zones self) k Hlt) as [zone Hz].
    right; right. exists zid, k, zone.
    by rewrite (_update_zone_run _ _ _ _ _ Hk Hz).
  - right; left. exists zid. by rewrite _update_zone_out_of_range.
Qed.

(** The system-status handler is, for each event type, one run of a
    mutator (after the mode was assigned, for ARMED_x and DISARMED) or
    nothing at all. *)
Lemma _handle_system_status_event_cases
    (type : SystemStatusEvent.EventType) (z : option Z) (self : Alarm) :
  (∃ state, (type = SystemStatusEvent.UNSEALED ∨
             type = SystemStatusEvent.SEALED) ∧
            _handle_system_status_event type z self =
              _update_zone z state self) ∨
  (∃ state, (type ∉ ARM_EVENTS_MAP.*1) ∧
            type ≠ SystemStatusEvent.DISARMED ∧
            _handle_system_status_event type z self =
              _update_arming_state state self) ∨
  (∃ mode, (type, mode) ∈ ARM_EVENTS_MAP ∧
           _handle_system_status_event type z self =
             _update_arming_state ArmingState.ARMING
               (with_arming_mode (Some mode) self)) ∨
  (type = SystemStatusEvent.DISARMED ∧
   _handle_system_status_event type z self =
     _update_arming_state ArmingState.DISARMED (with_arming_mode None self)).
Proof.
  assert (∀ mode, (type, mode) ∈ ARM_EVENTS_MAP →
    ∃ mode, (type, mode) ∈ ARM_EVENTS_MAP ∧
            _handle_system_status_event type z self =
            _update_arming_state ArmingState.ARMING
              (with_arming_mode (Some mode) self)) as Harm.
  { intros mode Hmap. exists mode. split; [done|]. by apply status_ARMED. }
  assert (∀ state, type ∉ ARM_EVENTS_MAP.*1 →
                   type ≠ SystemStatusEvent.DISARMED →
    _handle_system_status_event type z self =
      _update_arming_state state self →
    ∃ state, (type ∉ ARM_EVENTS_MAP.*1) ∧
             type ≠ SystemStatusEvent.DISARMED ∧
             _handle_system_status_event type z self =
               _update_arming_state state self) as Hst by eauto.
  assert (type ∉ ARM_EVENTS_MAP.*1 → type ≠ SystemStatusEvent.DISARMED →
    _handle_system_status_event type z self = (Return tt, self, []) →
    ∃ state, (type ∉ ARM_EVENTS_MAP.*1) ∧
             type ≠ SystemStatusEvent.DISARMED ∧
             _handle_system_status_event type z self =
               _update_arming_state state self) as Hnop.
  { intros H1 H2 H3. exists (arming_state self).
    by rewrite _update_arming_state_same. }
  destruct type.
  all: try solve [right; left; apply Hnop;
                    [compute_done | done
                    | apply status_ignored; unfold ignored_type; eauto]].
  all: try solve [right; right; left;
                  apply (Harm ArmingMode.ARMED_AWAY); compute_done].
  all: try solve [right; right; left;
                  apply (Harm ArmingMode.ARMED_HOME); compute_done].
  all: try solve [right; right; left;
                  apply (Harm ArmingMode.ARMED_DAY); compute_done].
  all: try solve [right; right; left;
                  apply (Harm ArmingMode.ARMED_NIGHT); compute_done].
  all: try solve [right; right; left;
                  apply (Harm ArmingMode.ARMED_VACATION); compute_done].
  all: try solve [right; right; left;
                  apply (Harm ArmingMode.ARMED_HIGHEST); compute_done].
  - left. exists true. split; [by left|apply status_UNSEALED].
  - left. exists false. split; [by right|apply status_SEALED].
  - right; left. eapply Hst; [compute_done|done|apply status_ALARM].
  - right; left.
    destruct (decide (arming_state self = ArmingState.DISARMED)) as [Hd|Hd].
    + apply Hnop; [compute_done|done|].
      rewrite status_ALARM_RESTORE.
      by rewrite bool_decide_false by (intros Hn; by apply Hn).
    + eapply Hst; [compute_done|done|].
      rewrite status_ALARM_RESTORE. by rewrite bool_decide_true.
  - right; left. eapply Hst; [compute_done|done|].
    apply status_ENTRY_DELAY_START.
  - right; left. eapply Hst; [compute_done|done|].
    apply status_EXIT_DELAY_START.
  - right; left.
    destruct (decide (arming_state self = ArmingState.EXIT_DELAY)) as [Hd|Hd].
    + eapply Hst; [compute_done|done|].
      rewrite status_EXIT_DELAY_END. by rewrite bool_decide_true.
    + apply Hnop; [compute_done|done|].
      rewrite status_EXIT_DELAY_END. by rewrite bool_decide_false.
  - right; right; right. split; [done|apply status_DISARMED].
Qed.

(** ** Instances that can be reached *)

Lemma reachable_shape (infer : bool) (self : Alarm) :
  reachable infer self →
  length (zones self) = 16%nat ∧ _infer_arming_state self = infer.
Proof.
  induction 1 as [|self f _ IH|self f _ IH|self event _ IH]; try done.
  destruct (handle_event_frame event self) as (-> & _ & _ & ->). done.
Qed.

(** X1: every instance reached from a fresh one, by registering listeners
    and handling events (also events whose handling raises), has exactly 16
    zones and the configuration flag it was created with. *)
Theorem reachable_16_zones (infer : bool) (self : Alarm) :
  reachable infer self →
  length (zones self) = 16%nat ∧ _infer_arming_state self = infer.
Proof. apply reachable_shape. Qed.

Lemma reachable_16_zones_witness :
  let self :=
    final (handle_event
             (SystemStatusEvent SystemStatusEvent.UNSEALED (Some 17))
             (on_zone_change 1%nat (init true))) in
  reachable true self ∧
  length (zones self) = 16%nat ∧ _infer_arming_state self = true.
Proof.
  intros self.
  assert (H : reachable true self)
    by (apply reachable_handle_event, reachable_on_zone_change,
          reachable_init).
  split; [exact H|]. exact (reachable_16_zones true self H).
Defined.

(** X2: handling an event never replaces or removes a listener, whether the
    handling returns or raises. *)
Theorem handle_event_keeps_listeners (event : BaseEvent) (self : Alarm) :
  _on_state_change (final (handle_event event self)) = _on_state_change self ∧
  _on_zone_change (final (handle_event event self)) = _on_zone_change self.
Proof. destruct (handle_event_frame event self) as (_ & -> & -> & _). done. Qed.

(** X3: with inference enabled, in every reachable instance the recorded
    mode is present only while the arming state is ARMING, EXIT_DELAY,
    ARMED, ARMED_MONITOR, ENTRY_DELAY or TRIGGERED. *)
Theorem reachable_mode_only_when_armed (self : Alarm) :
  reachable true self → mode_only_when_armed self.
Proof.
  induction 1 as [|self f _ IH|self f _ IH|self event Hr IH].
  - by intros H.
  - exact IH.
  - exact IH.
  - apply handle_event_mode_invariant; [|done].
    by destruct (reachable_shape true self Hr).
Qed.

Lemma reachable_mode_only_when_armed_witness :
  let self :=
    final (handle_event (ArmingUpdate [])
             (final (handle_event
                       (SystemStatusEvent SystemStatusEvent.ARMED_HOME (Some 0))
                       (init true)))) in
  reachable true self ∧
  arming_state self = ArmingState.ARMING ∧
  mode_only_when_armed self.
Proof.
  intros self.
  assert (H : reachable true self)
    by (do 2 apply reachable_handle_event; apply reachable_init).
  split; [exact H|]. split; [reflexivity|].
  exact (reachable_mode_only_when_armed self H).
Defined.

(** X4: no event takes the arming state back to UNKNOWN: if the state is
    UNKNOWN after an event, it was UNKNOWN before it. *)
Theorem unknown_never_entered (event : BaseEvent) (self : Alarm) :
  arming_state (final (handle_event event self)) = ArmingState.UNKNOWN →
  arming_state self = ArmingState.UNKNOWN.
Proof.
  assert (∀ state s,
    state ∈ armed_family ∨ state = ArmingState.DISARMED →
    arming_state (final (_update_arming_state state s)) =
      ArmingState.UNKNOWN → False) as Hno.
  { intros state s Hin. rewrite _update_arming_state_final. intros ->.
    revert Hin. compute_done. }
  destruct event as [status|request included|type z|]; simpl.
  - rewrite _handle_arming_update_run, _update_arming_state_final.
    unfold arming_update_target.
    repeat case_bool_decide; try done; by destruct (_infer_arming_state self).
  - case_bool_decide; [|done].
    destruct (_handle_zone_input_update_only_zones included self)
      as (_ & -> & _). done.
  - destruct (_handle_system_status_event_final type z self)
      as [(_ & -> & _) | [(state & Hin & ->) | [(mode & ->) | ->]]].
    + done.
    + intros H. destruct (Hno state self); auto.
    + intros H. destruct (Hno ArmingState.ARMING
                            (with_arming_mode (Some mode) self)); [|done].
      left. compute_done.
    + intros H. destruct (Hno ArmingState.DISARMED
                            (with_arming_mode None self)); auto.
  - done.
Qed.

Lemma unknown_never_entered_witness :
  let self := init false in
  let event := SystemStatusEvent SystemStatusEvent.EXIT_DELAY_END (Some 0) in
  arming_state (final (handle_event event self)) = ArmingState.UNKNOWN ∧
  arming_state self = ArmingState.UNKNOWN.
Proof.
  intros self event.
  assert (H : arming_state (final (handle_event event self)) =
                ArmingState.UNKNOWN) by reflexivity.
  split; [exact H|]. exact (unknown_never_entered event self H).
Defined.

(** ** Which listener is called, and when *)

(** The loop lemma for the calls, with a property of the instance that the
    body keeps. *)
Lemma for_each_calls_inv {A} (I : Alarm → Prop) (P : Call → Prop)
    (body : A → M unit) :
  (∀ x s, I s → I (final (body x s)) ∧ Forall P (calls (body x s))) →
  ∀ xs s, I s → Forall P (calls (for_each xs body s)).
Proof.
  intros Hbody. induction xs as [|x xs IH]; intros s Hs; [constructor|].
  simpl. rewrite calls_bind. destruct (Hbody x s Hs) as [Hfin Hcalls].
  destruct (result (body x s)); [|done].
  apply Forall_app. split; [done|by apply IH].
Qed.

Lemma _update_zone_calls_kind (z : option Z) (state : bool) (self : Alarm) :
  Forall (λ c, call_subject c ≠ OfArmingState ∧ call_to_registered self c)
    (calls (_update_zone z state self)).
Proof.
  destruct (_update_zone_cases z state self)
    as [[_ ->] | [(zid & _ & _ & ->) | (zid & k & zone & _ & _ & _ & ->)]];
    try constructor.
  case_bool_decide; [|constructor]. unfold calls, zone_calls; simpl.
  destruct (_on_zone_change self) as [f|] eqn:Hf; [|constructor].
  by repeat constructor.
Qed.

Lemma _handle_zone_input_update_calls_kind
    (included_zones : list ZoneUpdate.Zone) (self : Alarm) :
  Forall (λ c, call_subject c ≠ OfArmingState ∧ call_to_registered self c)
    (calls (_handle_zone_input_update included_zones self)).
Proof.
  unfold _handle_zone_input_update. rewrite bind_get.
  apply (for_each_calls_inv
           (λ s, _on_zone_change s = _on_zone_change self)); [|done].
  intros [i zone] s Hs.
  assert (∀ b,
    _on_zone_change (final (_update_zone (Some (Z.of_nat i + 1)) b s)) =
      _on_zone_change self ∧
    Forall (λ c, call_subject c ≠ OfArmingState ∧ call_to_registered self c)
      (calls (_update_zone (Some (Z.of_nat i + 1)) b s))) as Hupd.
  { intros b. split.
    - destruct (_update_zone_only_zones (Some (Z.of_nat i + 1)) b s)
        as (_ & _ & _ & _ & -> & _). done.
    - eapply Forall_impl; [apply _update_zone_calls_kind|].
      intros [f ? ?|f ? ?]; simpl; [by intros [? _]|].
      rewrite Hs. done. }
  destruct (ZoneUpdate.Zone_getitem _); [|by split; [|constructor]].
  case_bool_decide; apply Hupd.
Qed.

(** The two kinds of handling: one run of [_update_arming_state], possibly
    after the mode was assigned; or a run that only changes zone values and
    only calls the zone-change listener. *)
Lemma handle_event_kinds (event : BaseEvent) (self : Alarm) :
  (∃ state m,
     (m = _arming_mode self ∨ sets_mode event) ∧
     handle_event event self =
       _update_arming_state state (with_arming_mode m self)) ∨
  (only_zones_changed self (final (handle_event event self)) ∧
   Forall (λ c, call_subject c ≠ OfArmingState ∧ call_to_registered self c)
     (calls (handle_event event self))).
Proof.
  assert (with_arming_mode (_arming_mode self) self = self) as Hid
    by (by apply with_arming_mode_id).
  destruct event as [status|request included|type z|]; simpl.
  - left. exists (arming_update_target self status), (_arming_mode self).
    rewrite Hid. split; [by left|apply _handle_arming_update_run].
  - right. case_bool_decide.
    + split; [apply _handle_zone_input_update_only_zones
             |apply _handle_zone_input_update_calls_kind].
    + split; [apply only_zones_changed_refl|constructor].
  - destruct (_handle_system_status_event_cases type z self)
      as [(b & _ & ->) | [(state & _ & _ & ->)
         | [(mode & Hmap & ->) | [-> ->]]]].
    + right. split; [apply _update_zone_only_zones
                    |apply _update_zone_calls_kind].
    + left. exists state, (_arming_mode self). rewrite Hid. by split; [left|].
    + left. exists ArmingState.ARMING, (Some mode). split; [|done].
      right. exists type, z. split; [done|]. left.
      apply list_elem_of_fmap. by exists (type, mode).
    + left. exists ArmingState.DISARMED, None. split; [|done].
      right. exists SystemStatusEvent.DISARMED, z. split; [done|by right].
  - right. split; [apply only_zones_changed_refl|constructor].
Qed.

(** X5: the state-change listener is called exactly when an event changes
    the arming state: a call is made only to the registered listener, only
    when the state after the event differs from the state before, and it
    carries the state and the recorded mode as they are after the event;
    and when a listener is registered every change is followed by that
    call. *)
Theorem state_change_notified (event : BaseEvent) (self : Alarm) :
  let r := handle_event event self in
  (∀ f state mode,
     StateChange f state mode ∈ calls r →
     _on_state_change self = Some f ∧
     state = arming_state (final r) ∧
     mode = _arming_mode (final r) ∧
     arming_state self ≠ arming_state (final r)) ∧
  (∀ f,
     _on_state_change self = Some f →
     arming_state (final r) ≠ arming_state self →
     calls r =
       [StateChange f (arming_state (final r)) (_arming_mode (final r))]).
Proof.
  simpl. destruct (handle_event_kinds event self)
    as [(state & m & _ & ->) | [Hoz Hcalls]].
  - rewrite _update_arming_state_run. simpl.
    case_bool_decide as Hc; unfold final, calls, state_calls; simpl.
    + split.
      * intros f state' mode. destruct (_on_state_change self) as [g|];
          [|by intros ?%elem_of_nil].
        intros Hin%list_elem_of_singleton. by simplify_eq.
      * intros f -> _. done.
    + split; [by intros f state' mode ?%elem_of_nil|].
      intros f _ Hne. done.
  - split.
    + intros f state mode Hin.
      rewrite Forall_forall in Hcalls.
      destruct (Hcalls _ Hin) as [Hn _]. by destruct Hn.
    + intros f _ Hne. destruct Hoz as (_ & Hst & _). by destruct Hne.
Qed.

Lemma handle_event_calls_registered (event : BaseEvent) (self : Alarm) :
  Forall (call_to_registered self) (calls (handle_event event self)).
Proof.
  destruct (handle_event_kinds event self)
    as [(state & m & _ & ->) | [_ Hcalls]].
  - rewrite _update_arming_state_run. simpl.
    case_bool_decide; [|constructor]. unfold calls, state_calls; simpl.
    destruct (_on_state_change self) as [f|] eqn:Hf; [|constructor].
    by repeat constructor.
  - eapply Forall_impl; [exact Hcalls|]. by intros c [_ ?].
Qed.

(** X16: a call made while an event is handled goes to the listener
    registered for its kind; so with no listener registered, no call is
    made. *)
Theorem calls_go_to_registered_listeners (event : BaseEvent) (self : Alarm) :
  let r := handle_event event self in
  Forall (call_to_registered self) (calls r) ∧
  (_on_state_change self = None → _on_zone_change self = None →
   calls r = []).
Proof.
  simpl. pose proof (handle_event_calls_registered event self) as Hall.
  split; [done|]. intros Hs Hz.
  destruct (calls (handle_event event self)) as [|c cs]; [done|].
  apply Forall_cons in Hall as [Hc _].
  destruct c; simpl in Hc; congruence.
Qed.


(** X8: an event either leaves every zone as it is and calls nothing but
    the state-change listener, or leaves the arming state and the recorded
    mode as they are and calls nothing but the zone-change listener. *)
Theorem handle_event_separation (event : BaseEvent) (self : Alarm) :
  let r := handle_event event self in
  (zones (final r) = zones self ∧
   Forall (λ c, call_subject c = OfArmingState) (calls r)) ∨
  (arming_state (final r) = arming_state self ∧
   _arming_mode (final r) = _arming_mode self ∧
   Forall (λ c, call_subject c ≠ OfArmingState) (calls r)).
Proof.
  simpl. destruct (handle_event_kinds event self)
    as [(state & m & _ & ->) | [Hoz Hcalls]].
  - left. rewrite _update_arming_state_zones. split; [done|].
    rewrite _update_arming_state_run. simpl.
    case_bool_decide; [|constructor]. unfold calls, state_calls; simpl.
    destruct (_on_state_change self); by repeat constructor.
  - right. destruct Hoz as (_ & -> & -> & _). split; [done|]. split; [done|].
    eapply Forall_impl; [exact Hcalls|]. by intros c [? _].
Qed.

(** X9: the recorded mode changes only while one of the ARMED_x events or
    the DISARMED event is handled. *)
Theorem mode_changes_only_on_arm_and_disarm (event : BaseEvent)
    (self : Alarm) :
  _arming_mode (final (handle_event event self)) ≠ _arming_mode self →
  sets_mode event.
Proof.
  destruct (handle_event_kinds event self)
    as [(state & m & [-> | Hsets] & ->) | [Hoz _]].
  - rewrite _update_arming_state_mode. by intros H.
  - done.
  - destruct Hoz as (_ & _ & -> & _). by intros H.
Qed.

Lemma mode_changes_only_on_arm_and_disarm_witness :
  let event := SystemStatusEvent SystemStatusEvent.ARMED_NIGHT (Some 0) in
  _arming_mode (final (handle_event event (init false))) ≠
    _arming_mode (init false) ∧
  sets_mode event.
Proof.
  intros event.
  assert (H : _arming_mode (final (handle_event event (init false))) ≠
                _arming_mode (init false)) by discriminate.
  split; [exact H|].
  exact (mode_changes_only_on_arm_and_disarm event (init false) H).
Defined.

(** ** Zone reports, by zone id *)

Lemma filter_all {A} (P : A → Prop) `{!∀ x, Decision (P x)} (l : list A) :
  (∀ x, x ∈ l → P x) → filter P l = l.
Proof.
  induction l as [|x l IH]; intros Hall; [done|].
  rewrite filter_cons_True by (apply Hall; by left).
  f_equal. apply IH. intros y Hy. apply Hall. by right.
Qed.

(** Position of a zone id of the range -15..16 in a list of 16. *)
Lemma py_index_16 (zid : Z) :
  -15 ≤ zid ≤ 16 →
  py_index 16 (zid - 1) = Some (Z.to_nat ((zid - 1) `mod` 16)).
Proof.
  intros Hz. unfold py_index. case_bool_decide as H1.
  - by rewrite Z.mod_small by lia.
  - rewrite bool_decide_true by lia. f_equal. f_equal.
    apply (Z.mod_unique _ _ (-1)); lia.
Qed.

(** X6: on an instance with its 16 zones, a SEALED or UNSEALED event for a
    zone id from -15 to 16 returns; afterwards the zone at position
    (id - 1) mod 16 holds the value of the event, every other zone holds
    what it held, and the state, the mode, the flag and the listeners are
    as before; the zone-change listener is called with the id as given
    exactly when the stored value differed (a zone never reported before
    differs from both values).  For an id below -15 or above 16 the event
    raises IndexError, changes nothing and calls nothing. *)
Theorem zone_report_by_id (self : Alarm) (event : BaseEvent) (zid : Z)
    (state : bool) :
  length (zones self) = 16%nat →
  (event = SystemStatusEvent SystemStatusEvent.UNSEALED (Some zid) ∧
   state = true) ∨
  (event = SystemStatusEvent SystemStatusEvent.SEALED (Some zid) ∧
   state = false) →
  let r := handle_event event self in
  let k := Z.to_nat ((zid - 1) `mod` 16) in
  (-15 ≤ zid ≤ 16 →
     result r = Return tt ∧
     zones (final r) !! k = Some (mkZone (Some state)) ∧
     (∀ j : nat, j ≠ k → zones (final r) !! j = zones self !! j) ∧
     length (zones (final r)) = 16%nat ∧
     arming_state (final r) = arming_state self ∧
     _arming_mode (final r) = _arming_mode self ∧
     _infer_arming_state (final r) = _infer_arming_state self ∧
     _on_state_change (final r) = _on_state_change self ∧
     _on_zone_change (final r) = _on_zone_change self ∧
     (triggered <$> zones self !! k ≠ Some (Some state) →
        (∀ f, _on_zone_change self = Some f →
              calls r = [ZoneChange f zid state]) ∧
        (_on_zone_change self = None → calls r = [])) ∧
     (triggered <$> zones self !! k = Some (Some state) → calls r = [])) ∧
  (zid < -15 ∨ 16 < zid → r = (Raise IndexError, self, [])).
Proof.
  intros Hlen Hev r k.
  assert (r = _update_zone (Some zid) state self) as ->.
  { subst r. destruct Hev as [[-> ->] | [-> ->]]; simpl;
      [apply status_UNSEALED | apply status_SEALED]. }
  split.
  - intros Hz.
    assert (py_index (length (zones self)) (zid - 1) = Some k) as Hk
      by (rewrite Hlen; by apply py_index_16).
    pose proof (py_index_lt _ _ _ Hk) as Hlt.
    destruct (lookup_lt_is_Some_2 (zones self) k Hlt) as [zone Hzone].
    destruct (_update_zone_final zid state self k Hk) as [-> ->].
    split; [done|]. simpl.
    split; [by apply list_lookup_insert_eq|].
    split; [intros j Hj; by apply list_lookup_insert_ne|].
    split; [by rewrite length_insert|].
    do 5 (split; [done|]).
    rewrite (_update_zone_run _ _ _ _ _ Hk Hzone), Hzone. simpl.
    split.
    + intros Hne. rewrite bool_decide_true by congruence.
      unfold calls, zone_calls; simpl.
      split; [by intros f ->|by intros ->].
    + intros Heq. by rewrite bool_decide_false by (intros Hn; congruence).
  - intros Hz. apply _update_zone_out_of_range.
    rewrite Hlen. unfold py_index. by rewrite !bool_decide_false by lia.
Qed.

Lemma zone_report_by_id_witness :
  let self := on_zone_change 1%nat (init false) in
  let event := SystemStatusEvent SystemStatusEvent.UNSEALED (Some (-15)) in
  length (zones self) = 16%nat ∧
  zones (final (handle_event event self)) !! 0%nat =
    Some (mkZone (Some true)) ∧
  zones (final (handle_event event self)) !! 1%nat = Some (mkZone None) ∧
  calls (handle_event event self) = [ZoneChange 1%nat (-15) true].
Proof.
  intros self event.
  destruct (zone_report_by_id self event (-15) true eq_refl
              (or_introl (conj eq_refl eq_refl))) as [Hin _].
  destruct (Hin ltac:(lia)) as (_ & Hk & Hj & _ & _ & _ & _ & _ & _ & Hc & _).
  destruct (Hc ltac:(discriminate)) as [Hcall _].
  split; [reflexivity|]. split; [exact Hk|].
  split; [exact (Hj 1%nat ltac:(discriminate))|].
  exact (Hcall 1%nat eq_refl).
Defined.

(** X14: the first zone report handled by an instance whose 16 zones were
    never reported calls the zone-change listener for all 16 zones, in zone
    order, each with the value the report gives it. *)
Theorem first_zone_update_notifies_all (self : Alarm) (f : Listener)
    (included_zones : list ZoneUpdate.Zone) :
  zones self = replicate 16 (mkZone None) →
  _on_zone_change self = Some f →
  calls (handle_event
           (ZoneUpdate ZoneUpdate.ZONE_INPUT_UNSEALED included_zones) self) =
    (λ i : nat, ZoneChange f (Z.of_nat i + 1) (reported included_zones i))
      <$> seq 0 16.
Proof.
  intros Hz Hf. unfold handle_event. rewrite bool_decide_true by done.
  assert (length (zones self) = 16%nat) as Hlen by (by rewrite Hz).
  rewrite _handle_zone_input_update_loop, Hlen, zone_loop_run by lia.
  unfold calls, zone_loop_calls; cbn [snd]. rewrite Hf. f_equal.
  apply filter_all. intros i Hi%elem_of_seq. unfold zone_differs.
  rewrite Hz, lookup_replicate_2 by lia. by intros H.
Qed.

Lemma first_zone_update_notifies_all_witness :
  let self := on_zone_change 1%nat (init true) in
  zones self = replicate 16 (mkZone None) ∧
  _on_zone_change self = Some 1%nat ∧
  length (calls (handle_event
                   (ZoneUpdate ZoneUpdate.ZONE_INPUT_UNSEALED []) self))
    = 16%nat.
Proof.
  intros self. split; [reflexivity|]. split; [reflexivity|].
  by rewrite (first_zone_update_notifies_all self 1%nat [] eq_refl eq_refl).
Defined.

(** ** What the handlers look at in an event *)

Lemma for_each_ext {A} (body1 body2 : A → M unit) :
  (∀ x s, body1 x s = body2 x s) →
  ∀ xs s, for_each xs body1 s = for_each xs body2 s.
Proof.
  intros Hext. induction xs as [|x xs IH]; intros s; [done|].
  simpl. unfold mbind, M_bind. rewrite Hext.
  destruct (body2 x s) as [[[[]|e] s'] cs]; [|done]. by rewrite IH.
Qed.

(** X12: a ZoneUpdate is handled by the members of its included zones
    alone: two lists with the same members, whatever their order and
    repetitions, give the same outcome, the same instance and the same
    calls. *)
Theorem zone_update_by_membership (self : Alarm)
    (request_id : ZoneUpdate.RequestID)
    (included1 included2 : list ZoneUpdate.Zone) :
  (∀ z, z ∈ included1 ↔ z ∈ included2) →
  handle_event (ZoneUpdate request_id included1) self =
    handle_event (ZoneUpdate request_id included2) self.
Proof.
  intros Hmem. simpl. case_bool_decide; [|done].
  unfold _handle_zone_input_update. rewrite !bind_get.
  apply for_each_ext. intros [i zone] s.
  destruct (ZoneUpdate.Zone_getitem _) as [z|]; [|done].
  by rewrite (bool_decide_ext _ _ (Hmem z)).
Qed.

Lemma zone_update_by_membership_witness :
  let inc1 := [ZoneUpdate.ZONE_3; ZoneUpdate.ZONE_7] in
  let inc2 := [ZoneUpdate.ZONE_7; ZoneUpdate.ZONE_3; ZoneUpdate.ZONE_7] in
  (∀ z, z ∈ inc1 ↔ z ∈ inc2) ∧
  handle_event (ZoneUpdate ZoneUpdate.ZONE_INPUT_UNSEALED inc1) (init false) =
    handle_event (ZoneUpdate ZoneUpdate.ZONE_INPUT_UNSEALED inc2) (init false).
Proof.
  intros inc1 inc2.
  assert (H : ∀ z, z ∈ inc1 ↔ z ∈ inc2) by (intros z; destruct z; compute_done).
  split; [exact H|].
  exact (zone_update_by_membership (init false) _ inc1 inc2 H).
Defined.

(** X13: of the status of an ArmingUpdate the handler uses four facts only:
    whether it is the one-element list [AREA_1_ARMED], and whether
    MONITOR_ARMED, AREA_1_ARMED and AREA_1_FULLY_ARMED are members.  Two
    statuses that agree on the four are handled alike; any other flag
    matters only by making the list differ from [AREA_1_ARMED]. *)
Theorem arming_update_by_four_facts (self : Alarm)
    (status1 status2 : list ArmingUpdate.ArmingStatus) :
  (status1 = [ArmingUpdate.AREA_1_ARMED] ↔
   status2 = [ArmingUpdate.AREA_1_ARMED]) →
  (ArmingUpdate.MONITOR_ARMED ∈ status1 ↔
   ArmingUpdate.MONITOR_ARMED ∈ status2) →
  (ArmingUpdate.AREA_1_ARMED ∈ status1 ↔
   ArmingUpdate.AREA_1_ARMED ∈ status2) →
  (ArmingUpdate.AREA_1_FULLY_ARMED ∈ status1 ↔
   ArmingUpdate.AREA_1_FULLY_ARMED ∈ status2) →
  handle_event (ArmingUpdate status1) self =
    handle_event (ArmingUpdate status2) self.
Proof.
  intros H1 H2 H3 H4. simpl. rewrite !_handle_arming_update_run.
  f_equal. unfold arming_update_target.
  by rewrite (bool_decide_ext _ _ H1), (bool_decide_ext _ _ H2),
    (bool_decide_ext _ _ H3), (bool_decide_ext _ _ H4).
Qed.

Lemma arming_update_by_four_facts_witness :
  let status1 := [ArmingUpdate.AREA_1_ARMED; ArmingUpdate.OTHER_STATUS 5] in
  let status2 := [ArmingUpdate.OTHER_STATUS 7; ArmingUpdate.AREA_1_ARMED;
                  ArmingUpdate.AREA_1_ARMED] in
  handle_event (ArmingUpdate status1) (init false) =
    handle_event (ArmingUpdate status2) (init false).
Proof.
  intros status1 status2.
  apply (arming_update_by_four_facts (init false) status1 status2);
    compute_done.
Defined.

(** ** Where a state comes from *)

(** Rewrites the system-status handler, at a given event type, into the
    mutator it runs. *)
Ltac rewrite_status :=
  first
    [ rewrite !status_UNSEALED
    | rewrite !status_SEALED
    | rewrite !status_ALARM
    | rewrite !status_ALARM_RESTORE
    | rewrite !status_ENTRY_DELAY_START
    | rewrite !status_EXIT_DELAY_START
    | rewrite !status_EXIT_DELAY_END
    | rewrite !status_DISARMED
    | rewrite !(status_ARMED _ ArmingMode.ARMED_AWAY) by compute_done
    | rewrite !(status_ARMED _ ArmingMode.ARMED_HOME) by compute_done
    | rewrite !(status_ARMED _ ArmingMode.ARMED_DAY) by compute_done
    | rewrite !(status_ARMED _ ArmingMode.ARMED_NIGHT) by compute_done
    | rewrite !(status_ARMED _ ArmingMode.ARMED_VACATION) by compute_done
    | rewrite !(status_ARMED _ ArmingMode.ARMED_HIGHEST) by compute_done
    | rewrite !status_ignored by (unfold ignored_type; eauto) ].

Lemma _update_zone_state (z : option Z) (state : bool) (self : Alarm) :
  arming_state (final (_update_zone z state self)) = arming_state self.
Proof. by destruct (_update_zone_only_zones z state self) as (_ & -> & _). Qed.

(** X10: the arming state becomes TRIGGERED by the ALARM event only: if it
    is TRIGGERED after an event, it was TRIGGERED before or the event is an
    ALARM. *)
Theorem triggered_only_by_alarm (event : BaseEvent) (self : Alarm) :
  arming_state (final (handle_event event self)) = ArmingState.TRIGGERED →
  arming_state self = ArmingState.TRIGGERED ∨
  ∃ zone, event = SystemStatusEvent SystemStatusEvent.ALARM zone.
Proof.
  destruct event as [status|request included|type z|]; simpl.
  - rewrite _handle_arming_update_run, _update_arming_state_final.
    unfold arming_update_target.
    repeat case_bool_decide; destruct (_infer_arming_state self);
      intros; try done; auto.
  - case_bool_decide; [|auto].
    destruct (_handle_zone_input_update_only_zones included self)
      as (_ & -> & _). auto.
  - destruct type; rewrite_status;
      rewrite ?_update_zone_state; auto;
      try (case_bool_decide; [|auto]);
      rewrite ?_update_arming_state_final; try done; eauto.
  - auto.
Qed.

Lemma triggered_only_by_alarm_witness :
  let event := SystemStatusEvent SystemStatusEvent.ALARM (Some 3) in
  arming_state (final (handle_event event (init false))) =
    ArmingState.TRIGGERED ∧
  (arming_state (init false) = ArmingState.TRIGGERED ∨
   ∃ zone, event = SystemStatusEvent SystemStatusEvent.ALARM zone).
Proof.
  intros event.
  assert (H : arming_state (final (handle_event event (init false))) =
                ArmingState.TRIGGERED) by reflexivity.
  split; [exact H|]. exact (triggered_only_by_alarm event (init false) H).
Defined.

(** X11: with inference enabled, the arming state becomes DISARMED by the
    DISARMED event, or by an ArmingUpdate handled in state UNKNOWN, and in
    no other way: an arming-status report never disarms a panel whose state
    is known. *)
Theorem disarmed_with_inference (event : BaseEvent) (self : Alarm) :
  _infer_arming_state self = true →
  arming_state (final (handle_event event self)) = ArmingState.DISARMED →
  arming_state self = ArmingState.DISARMED ∨
  (∃ zone, event = SystemStatusEvent SystemStatusEvent.DISARMED zone) ∨
  (arming_state self = ArmingState.UNKNOWN ∧
   ∃ status, event = ArmingUpdate status).
Proof.
  intros Hinfer.
  destruct event as [status|request included|type z|]; simpl.
  - rewrite _handle_arming_update_run, _update_arming_state_final.
    unfold arming_update_target. rewrite Hinfer.
    repeat case_bool_decide; intros; try done; eauto.
  - case_bool_decide; [|auto].
    destruct (_handle_zone_input_update_only_zones included self)
      as (_ & -> & _). auto.
  - destruct type; rewrite_status;
      rewrite ?_update_zone_state; auto;
      try (case_bool_decide; [|auto]);
      rewrite ?_update_arming_state_final; try done; eauto.
  - auto.
Qed.

Lemma disarmed_with_inference_witness :
  let event := ArmingUpdate [] in
  _infer_arming_state (init true) = true ∧
  arming_state (final (handle_event event (init true))) =
    ArmingState.DISARMED ∧
  (arming_state (init true) = ArmingState.DISARMED ∨
   (∃ zone, event = SystemStatusEvent SystemStatusEvent.DISARMED zone) ∨
   (arming_state (init true) = ArmingState.UNKNOWN ∧
    ∃ status, event = ArmingUpdate status)).
Proof.
  intros event. split; [reflexivity|].
  assert (H : arming_state (final (handle_event event (init true))) =
                ArmingState.DISARMED) by reflexivity.
  split; [exact H|].
  exact (disarmed_with_inference event (init true) eq_refl H).
Defined.

(** ** Zone values once known *)

Lemma with_zone_triggered_known (k j : nat) (b : bool) (self : Alarm) :
  (∃ b', zones self !! j = Some (mkZone (Some b'))) →
  ∃ b', zones (with_zone_triggered k b self) !! j = Some (mkZone (Some b')).
Proof.
  intros [b' Hj]. simpl. destruct (decide (k = j)) as [->|Hne].
  - exists b. apply list_lookup_insert_eq. by apply lookup_lt_Some in Hj.
  - exists b'. by rewrite list_lookup_insert_ne.
Qed.

Lemma _update_zone_known (z : option Z) (state : bool) (j : nat)
    (self : Alarm) :
  (∃ b, zones self !! j = Some (mkZone (Some b))) →
  ∃ b, zones (final (_update_zone z state self)) !! j =
         Some (mkZone (Some b)).
Proof.
  intros Hj. destruct (_update_zone_cases z state self)
    as [[_ ->] | [(zid & _ & _ & ->) | (zid & k & zone & _ & _ & _ & ->)]];
    try done.
  case_bool_decide; [|done]. by apply with_zone_triggered_known.
Qed.

(** X17: a zone value, once sealed or unsealed, never goes back to unknown:
    whatever event is handled next, and however its handling ends, the zone
    still holds one of the two values. *)
Theorem zone_never_unknown_again (event : BaseEvent) (self : Alarm)
    (j : nat) (b : bool) :
  zones self !! j = Some (mkZone (Some b)) →
  ∃ b', zones (final (handle_event event self)) !! j =
          Some (mkZone (Some b')).
Proof.
  intros Hj.
  assert (∃ b, zones self !! j = Some (mkZone (Some b))) as Hknown by eauto.
  destruct event as [status|request included|type z|]; simpl.
  - rewrite _handle_arming_update_run, _update_arming_state_zones. eauto.
  - case_bool_decide; [|done].
    unfold _handle_zone_input_update. rewrite bind_get.
    apply (for_each_final
             (λ s, ∃ b, zones s !! j = Some (mkZone (Some b)))); [|done].
    intros [i zone] s Hs.
    destruct (ZoneUpdate.Zone_getitem _); [|done].
    case_bool_decide; by apply _update_zone_known.
  - destruct (_handle_system_status_event_cases type z self)
      as [(st & _ & ->) | [(state & _ & _ & ->)
         | [(mode & _ & ->) | [_ ->]]]].
    + by apply _update_zone_known.
    + by rewrite _update_arming_state_zones.
    + by rewrite _update_arming_state_zones.
    + by rewrite _update_arming_state_zones.
  - done.
Qed.

Lemma zone_never_unknown_again_witness :
  let self :=
    final (handle_event
             (SystemStatusEvent SystemStatusEvent.UNSEALED (Some 4))
             (init false)) in
  zones self !! 3%nat = Some (mkZone (Some true)) ∧
  ∃ b', zones (final (handle_event (ZoneUpdate ZoneUpdate.ZONE_INPUT_UNSEALED
                                      []) self)) !! 3%nat =
          Some (mkZone (Some b')).
Proof.
  intros self. split; [reflexivity|].
  exact (zone_never_unknown_again _ self 3 true eq_refl).
Defined.
